(** * The service-principal credentials provider

    A shallow embedding of [databricks/sqlalchemy/_service_principal.py]:
    the OAuth client-credentials provider with its token cache.

    Python values that come out of [response.json()] are kept as they
    are (the code stores whatever the server sent), exceptions keep the
    state that was reached when they were raised, and the clock and the
    network are oracles of the world the provider runs in. *)

From Stdlib Require Import ZArith Lia String Ascii List.
From Stdlib Require Import Floats.SpecFloat.
From stdpp Require Import base option strings gmap list.

Set Warnings "-register-all".
Local Open Scope Z_scope.
Local Open Scope string_scope.

(** ** Python values and exceptions *)

Module Py.

(** What [json.loads] can return.  [JNull] is Python's [None]; a JSON
    number is an [int] or a [float], and Python's parser yields the
    float infinity for a literal such as [1e999] and for [Infinity]. *)
Inductive json : Type :=
| JNull
| JBool (b : bool)
| JInt (z : Z)
| JFloat (f : spec_float)
| JStr (s : string)
| JArr (l : list json)
| JObj (m : gmap string json).

(** The exceptions that can travel through the provider. *)
Inductive exn : Type :=
| ServicePrincipalConfigurationError (msg : string)
| ServicePrincipalAuthenticationError (msg : string)
| TypeError
| ValueError
| OverflowError
| KeyError
| AttributeError
| AssertionError
| RequestException.

(** [bool(v)] *)
Definition truthy (v : json) : bool :=
  match v with
  | JNull => false
  | JBool b => b
  | JInt z => negb (Z.eqb z 0)
  | JFloat (S754_zero _) => false
  | JFloat _ => true
  | JStr s => negb (String.eqb s "")
  | JArr l => match l with [] => false | _ => true end
  | JObj m => negb (bool_decide (m = ∅))
  end.

(** [not s] for an argument that is a [str] or [None]. *)
Definition falsy_str (s : option string) : bool :=
  match s with
  | None => true
  | Some s => String.eqb s ""
  end.

(** [int(f)] on a finite float: truncation toward zero. *)
Definition trunc_finite (s : bool) (m : positive) (e : Z) : Z :=
  let a := if Z.leb 0 e then Z.shiftl (Z.pos m) e else Z.shiftr (Z.pos m) (- e) in
  if s then - a else a.

(** [s.startswith(p)] *)
Definition startswith (s p : string) : bool := String.prefix p s.

(** [s[n:]] *)
Fixpoint slice_from (n : nat) (s : string) : string :=
  match n, s with
  | O, _ => s
  | S n', String _ s' => slice_from n' s'
  | S _, EmptyString => EmptyString
  end.

(** [s.rstrip(c)] for a single character [c]. *)
Fixpoint rstrip (c : ascii) (s : string) : string :=
  match s with
  | EmptyString => EmptyString
  | String a s' =>
      let r := rstrip c s' in
      if Ascii.eqb a c && String.eqb r "" then EmptyString else String a r
  end.

(** [s.endswith(c)] for a single character [c]. *)
Fixpoint endswith_char (c : ascii) (s : string) : bool :=
  match s with
  | EmptyString => false
  | String a EmptyString => Ascii.eqb a c
  | String _ s' => endswith_char c s'
  end.

(** [sep.join(l)] *)
Definition join (sep : string) (l : list string) : string := String.concat sep l.

End Py.
Import Py.

(** ** The library interfaces the provider is written against *)

(** The object returned by [get_oauth_endpoints]: the two methods the
    provider calls on it. *)
Record OAuthEndpointCollection : Type := {
  get_scopes_mapping : list string -> list string;
  get_openid_config_url : string -> string;
}.

(** What the provider takes from outside the repository.
    - [get_oauth_endpoints hostname use_azure_auth] is
      [databricks.sql.auth.endpoint.get_oauth_endpoints], [None] when the
      host belongs to no known cloud;
    - [int_of_str s] is the builtin [int(s)] on a [str], [None] when it
      raises [ValueError];
    - [format_value v] is how an f-string renders a value that is not a
      [str]. *)
Class Platform : Type := {
  get_oauth_endpoints : string -> bool -> option OAuthEndpointCollection;
  int_of_str : string -> option Z;
  format_value : json -> string;
}.

(** A response object, through the two methods the provider calls:
    [raise_for_status()] raises or not, [json()] raises ([None]) or
    returns the decoded body. *)
Record Response : Type := {
  raise_for_status_raises : bool;
  json_body : option json;
}.

(** A call of [requests.get] or [requests.post] raises (connection
    error, timeout, bad URL) or returns a response. *)
Inductive outcome : Type :=
| Raises
| Returns (r : Response).

Record PostRequest : Type := {
  post_url : json;
  post_data : gmap string string;
  post_timeout : Z;
}.

Record GetRequest : Type := {
  get_url : string;
  get_timeout : Z;
}.

(** The world: the clock ([clock i] is what the [i]-th call of
    [time.time()] returns, in whole seconds as the clock of the unit
    test reads, so that the arithmetic on it is exact), the network
    (the answer to the [i]-th GET and to the [i]-th POST, given the
    request), and the requests sent so far, oldest first. *)
Record World : Type := {
  clock : nat -> Z;
  ticks : nat;
  net_get : nat -> GetRequest -> outcome;
  gets : list GetRequest;
  net_post : nat -> PostRequest -> outcome;
  posts : list PostRequest;
}.

(** The instance attributes of [ServicePrincipalCredentialsProvider]
    (the lock apart). *)
Record Provider : Type := {
  _hostname : string;
  _client_id : string;
  _client_secret : string;
  _scopes : list string;
  _refresh_margin : Z;
  _request_timeout : Z;
  _access_token : json;
  _expires_at : Z;
  _token_endpoint : json;
}.

(** The [scopes] argument, an [Iterable[str]]: a sized collection (list,
    tuple, set), false when empty, or an iterator or generator object,
    which is always true. *)
Inductive Iterable : Type :=
| Sized (items : list string)
| Iterator (items : list string).

Definition iter_truthy (it : Iterable) : bool :=
  match it with
  | Sized [] => false
  | Sized _ => true
  | Iterator _ => true
  end.

(** [tuple(it)] *)
Definition tuple (it : Iterable) : list string :=
  match it with
  | Sized l => l
  | Iterator l => l
  end.

(** ** Computations that can raise *)

(** A computation over a state [S]: its result or the exception it
    raised, with the state reached either way. *)
Definition M (S A : Type) : Type := S -> (exn + A) * S.

Definition ret {S A} (a : A) : M S A := fun s => (inr a, s).
Definition raise {S A} (e : exn) : M S A := fun s => (inl e, s).
Definition bind {S A B} (m : M S A) (k : A -> M S B) : M S B :=
  fun s => match m s with
           | (inr a, s') => k a s'
           | (inl e, s') => (inl e, s')
           end.

(** [try: m except <handled>: h] *)
Definition try_except {S A} (m : M S A) (handled : exn -> bool) (h : M S A) : M S A :=
  fun s => match m s with
           | (inl e, s') => if handled e then h s' else (inl e, s')
           | r => r
           end.

Notation "'let!' x := m 'in' k" := (bind m (fun x => k))
  (at level 10, x name, m at level 100, k at level 200).
Notation "'do!' m 'in' k" := (bind m (fun _ => k))
  (at level 10, m at level 100, k at level 200).

(** [except Exception] *)
Definition Exception (e : exn) : bool := true.

(** [except (TypeError, ValueError)]: the configuration error is a
    [ValueError] subclass. *)
Definition TypeError_or_ValueError (e : exn) : bool :=
  match e with
  | TypeError | ValueError | ServicePrincipalConfigurationError _ => true
  | _ => false
  end.

(** *** Python operations used by the module *)

(** [v[key]]: only a dict can be indexed by a string. *)
Definition getitem {S} (v : json) (key : string) : M S json :=
  match v with
  | JObj m => match m !! key with
              | Some x => ret x
              | None => raise KeyError
              end
  | _ => raise TypeError
  end.

(** [v.get(key, dflt)]: a method of dicts only. *)
Definition dict_get {S} (v : json) (key : string) (dflt : json) : M S json :=
  match v with
  | JObj m => ret (default dflt (m !! key))
  | _ => raise AttributeError
  end.

(** [int(v)] *)
Definition py_int `{Platform} {S} (v : json) : M S Z :=
  match v with
  | JInt z => ret z
  | JBool b => ret (if b then 1 else 0)
  | JFloat (S754_zero _) => ret 0
  | JFloat (S754_finite s m e) => ret (trunc_finite s m e)
  | JFloat (S754_infinity _) => raise OverflowError
  | JFloat S754_nan => raise ValueError
  | JStr s => match int_of_str s with
              | Some z => ret z
              | None => raise ValueError
              end
  | JNull | JArr _ | JObj _ => raise TypeError
  end.

(** [f"{v}"] *)
Definition py_str `{Platform} (v : json) : string :=
  match v with
  | JStr s => s
  | _ => format_value v
  end.

(** [response.raise_for_status()] *)
Definition raise_for_status {S} (r : Response) : M S unit :=
  if raise_for_status_raises r then raise RequestException else ret tt.

(** [response.json()] *)
Definition response_json {S} (r : Response) : M S json :=
  match json_body r with
  | Some v => ret v
  | None => raise RequestException
  end.

(** *** The world's operations *)

(** The world after one more reading of the clock. *)
Definition tick (w : World) : World :=
  {| clock := clock w; ticks := S (ticks w);
     net_get := net_get w; gets := gets w;
     net_post := net_post w; posts := posts w |}.

(** The world after one more GET, one more POST. *)
Definition log_get (req : GetRequest) (w : World) : World :=
  {| clock := clock w; ticks := ticks w;
     net_get := net_get w; gets := gets w ++ [req];
     net_post := net_post w; posts := posts w |}.

Definition log_post (req : PostRequest) (w : World) : World :=
  {| clock := clock w; ticks := ticks w;
     net_get := net_get w; gets := gets w;
     net_post := net_post w; posts := posts w ++ [req] |}.

(** [time.time()] *)
Definition time_time : M World Z :=
  fun w => (inr (clock w (ticks w)), tick w).

(** [requests.get(url, timeout=timeout)] *)
Definition requests_get (url : string) (timeout : Z) : M World Response :=
  fun w =>
    let req := {| get_url := url; get_timeout := timeout |} in
    match net_get w (length (gets w)) req with
    | Raises => (inl RequestException, log_get req w)
    | Returns r => (inr r, log_get req w)
    end.

(** [requests.post(url, data=data, timeout=timeout)] *)
Definition requests_post (url : json) (data : gmap string string) (timeout : Z)
  : M World Response :=
  fun w =>
    let req := {| post_url := url; post_data := data; post_timeout := timeout |} in
    match net_post w (length (posts w)) req with
    | Raises => (inl RequestException, log_post req w)
    | Returns r => (inr r, log_post req w)
    end.

(** *** Methods run on the instance and the world *)

Definition State : Type := Provider * World.

Definition in_world {A} (m : M World A) : M State A :=
  fun '(me, w) => let '(r, w') := m w in (r, (me, w')).

Definition self : M State Provider := fun '(me, w) => (inr me, (me, w)).

(** The instance with [_access_token] and [_expires_at] replaced. *)
Definition with_cache (token : json) (expires_at : Z) (me : Provider) : Provider :=
  {| _hostname := _hostname me; _client_id := _client_id me;
     _client_secret := _client_secret me; _scopes := _scopes me;
     _refresh_margin := _refresh_margin me;
     _request_timeout := _request_timeout me;
     _access_token := token; _expires_at := expires_at;
     _token_endpoint := _token_endpoint me |}.

(** [self._access_token = v] *)
Definition set_access_token (v : json) : M State unit :=
  fun '(me, w) => (inr tt, (with_cache v (_expires_at me) me, w)).

(** [self._expires_at = t] *)
Definition set_expires_at (t : Z) : M State unit :=
  fun '(me, w) => (inr tt, (with_cache (_access_token me) t me, w)).

(** ** The module *)

(** [_normalize_hostname] *)
Definition _normalize_hostname (hostname : string) : string :=
  let maybe_scheme := if startswith hostname "https://" then "" else "https://" in
  let trimmed :=
    if startswith hostname "https://"
    then slice_from (String.length "https://") hostname
    else hostname in
  rstrip "/" (maybe_scheme ++ trimmed).

Definition DEFAULT_SCOPES : list string := ["sql"].

(** The defaults of the keyword arguments [refresh_margin] and
    [request_timeout]. *)
Definition default_refresh_margin : Z := 60.
Definition default_request_timeout : Z := 10.

Section Methods.
Context `{Platform}.

(** [_discover_token_endpoint], called by [__init__] on the instance
    whose other attributes are set. *)
Definition _discover_token_endpoint (me : Provider)
    (oauth_endpoints : OAuthEndpointCollection) : M World json :=
  let openid_config_url := get_openid_config_url oauth_endpoints (_hostname me) in
  let! config :=
    try_except
      (let! response := requests_get openid_config_url (_request_timeout me) in
       do! raise_for_status response in
       response_json response)
      Exception
      (raise (ServicePrincipalAuthenticationError
                "Failed to load Databricks OAuth configuration")) in
  let! token_endpoint := dict_get config "token_endpoint" JNull in
  if negb (truthy token_endpoint)
  then raise (ServicePrincipalAuthenticationError
                "OAuth configuration did not include a token endpoint")
  else ret token_endpoint.

(** [__init__]: the instance it builds, or the exception it raises. *)
Definition __init__ (server_hostname client_id client_secret : option string)
    (scopes : option Iterable) (refresh_margin request_timeout : Z)
  : M World Provider :=
  if falsy_str server_hostname
  then raise (ServicePrincipalConfigurationError "server_hostname is required")
  else if falsy_str client_id
  then raise (ServicePrincipalConfigurationError "client_id is required")
  else if falsy_str client_secret
  then raise (ServicePrincipalConfigurationError "client_secret is required")
  else
    let server_hostname := default "" server_hostname in
    let hostname := _normalize_hostname server_hostname in
    match get_oauth_endpoints hostname false with
    | None =>
        raise (ServicePrincipalConfigurationError
                 ("Unable to determine OAuth endpoints for host " ++ server_hostname))
    | Some oauth_endpoints =>
        let scope_tuple :=
          match scopes with
          | Some it => if iter_truthy it then tuple it else DEFAULT_SCOPES
          | None => DEFAULT_SCOPES
          end in
        let mapped_scopes := get_scopes_mapping oauth_endpoints scope_tuple in
        let me := {| _hostname := hostname;
                     _client_id := default "" client_id;
                     _client_secret := default "" client_secret;
                     _scopes := mapped_scopes;
                     _refresh_margin := refresh_margin;
                     _request_timeout := request_timeout;
                     _access_token := JNull;
                     _expires_at := 0;
                     _token_endpoint := JNull |} in
        let! token_endpoint := _discover_token_endpoint me oauth_endpoints in
        ret {| _hostname := hostname;
               _client_id := default "" client_id;
               _client_secret := default "" client_secret;
               _scopes := mapped_scopes;
               _refresh_margin := refresh_margin;
               _request_timeout := request_timeout;
               _access_token := JNull;
               _expires_at := 0;
               _token_endpoint := token_endpoint |}
    end.

(** [_needs_refresh] *)
Definition _needs_refresh : M State bool :=
  let! me := self in
  if negb (truthy (_access_token me))
  then ret true
  else
    let! now := in_world time_time in
    ret (Z.geb now (_expires_at me - _refresh_margin me)).

(** The lifetime read from the token response: the lines of
    [_refresh_token] from [expires_in_raw = ...] to the end of its
    [try]. *)
Definition parse_expires_in {S} (parsed : json) : M S Z :=
  let! expires_in_raw := dict_get parsed "expires_in" (JInt 3600) in
  try_except (py_int expires_in_raw) TypeError_or_ValueError (ret 3600).

(** The form fields of the token request. *)
Definition token_payload (me : Provider) : gmap string string :=
  list_to_map [("grant_type", "client_credentials");
               ("client_id", _client_id me);
               ("client_secret", _client_secret me);
               ("scope", join " " (_scopes me))].

(** [_refresh_token] *)
Definition _refresh_token : M State unit :=
  let! me := self in
  let payload := token_payload me in
  let! response :=
    in_world (requests_post (_token_endpoint me) payload (_request_timeout me)) in
  do! try_except (raise_for_status response) Exception
        (raise (ServicePrincipalAuthenticationError
                  "Failed to retrieve OAuth token for service principal")) in
  let! found :=
    try_except
      (let! parsed := response_json response in
       let! access_token := getitem parsed "access_token" in
       ret (parsed, access_token))
      Exception
      (raise (ServicePrincipalAuthenticationError
                "OAuth response did not include an access token")) in
  let '(parsed, access_token) := found in
  let! expires_in := parse_expires_in parsed in
  do! set_access_token access_token in
  let! now := in_world time_time in
  let! me := self in
  set_expires_at (now + Z.max expires_in (_refresh_margin me + 1)).

(** [_get_token]; the body runs with [self._lock] held, which a single
    caller always finds free and leaves free. *)
Definition _get_token : M State json :=
  let! stale := _needs_refresh in
  do! (if stale then _refresh_token else ret tt) in
  let! me := self in
  if truthy (_access_token me)
  then ret (_access_token me)
  else raise AssertionError.

(** The closure [header_factory] that [__call__] returns. *)
Definition header_factory : M State (gmap string string) :=
  let! access_token := _get_token in
  ret {[ "Authorization" := "Bearer " ++ py_str access_token ]}.

Definition __call__ : M State (gmap string string) := header_factory.

End Methods.

(** ** Runs and example worlds *)

(** [n] calls of the header factory in a row; a caller that goes on
    after an exception. *)
Fixpoint reads `{Platform} (n : nat) (s : State)
  : list (exn + gmap string string) * State :=
  match n with
  | O => ([], s)
  | S n' =>
      let '(r, s') := header_factory s in
      let '(rs, s'') := reads n' s' in
      (r :: rs, s'')
  end.

(** A clock under the caller's control: from now on it reads [t]. *)
Definition set_clock (t : Z) (w : World) : World :=
  {| clock := fun _ => t; ticks := ticks w;
     net_get := net_get w; gets := gets w;
     net_post := net_post w; posts := posts w |}.

(** The request [_refresh_token] sends. *)
Definition token_request (me : Provider) : PostRequest :=
  {| post_url := _token_endpoint me;
     post_data := token_payload me;
     post_timeout := _request_timeout me |}.

(** A successful token response with the given fields. *)
Definition token_response (fields : list (string * json)) : Response :=
  {| raise_for_status_raises := false;
     json_body := Some (JObj (list_to_map fields)) |}.

(** A world that has sent nothing yet, whose clock reads [0], and whose
    network answers every GET with [discovery] and the [i]-th POST with
    the [i]-th of [tokens] (and raises once they are used up). *)
Definition scripted_world (discovery : outcome) (tokens : list Response) : World :=
  {| clock := fun _ => 0; ticks := 0%nat;
     net_get := fun _ _ => discovery; gets := [];
     net_post := fun i _ => match tokens !! i with
                            | Some r => Returns r
                            | None => Raises
                            end;
     posts := [] |}.

(** The endpoint collection of a workspace host: scopes unchanged. *)
Definition plain_endpoints : OAuthEndpointCollection :=
  {| get_scopes_mapping := fun scopes => scopes;
     get_openid_config_url :=
       fun hostname => hostname ++ "/oidc/.well-known/oauth-authorization-server" |}.

(** A platform for examples: every host has [plain_endpoints], no
    string converts to an integer, other values render as [?]. *)
Definition example_platform : Platform :=
  {| get_oauth_endpoints := fun _ _ => Some plain_endpoints;
     int_of_str := fun _ => None;
     format_value := fun _ => "?" |}.

(** A provider as [__init__] leaves it: nothing cached. *)
Definition example_provider (margin : Z) : Provider :=
  {| _hostname := "https://dbc.cloud.databricks.com";
     _client_id := "client-id";
     _client_secret := "secret";
     _scopes := ["sql"];
     _refresh_margin := margin;
     _request_timeout := 10;
     _access_token := JNull;
     _expires_at := 0;
     _token_endpoint := JStr "https://dbc.cloud.databricks.com/oidc/v1/token" |}.

(** The two answers of the refresh test: [{"access_token": "t1",
    "expires_in": 5}] and the same with [t2]. *)
Definition answer_t1 : Response :=
  token_response [("access_token", JStr "t1"); ("expires_in", JInt 5)].
Definition answer_t2 : Response :=
  token_response [("access_token", JStr "t2"); ("expires_in", JInt 5)].

(** A token response whose lifetime is the float infinity, as
    [{"access_token": "t1", "expires_in": 1e999}] decodes. *)
Definition answer_infinite : Response :=
  token_response [("access_token", JStr "t1");
                  ("expires_in", JFloat (S754_infinity false))].

(** The GET that [_discover_token_endpoint] sends. *)
Definition discovery_request (me : Provider)
    (oauth_endpoints : OAuthEndpointCollection) : GetRequest :=
  {| get_url := get_openid_config_url oauth_endpoints (_hostname me);
     get_timeout := _request_timeout me |}.

(** The scope tuple [__init__] maps: the argument, or the default. *)
Definition scope_tuple (scopes : option Iterable) : list string :=
  match scopes with
  | Some it => if iter_truthy it then tuple it else DEFAULT_SCOPES
  | None => DEFAULT_SCOPES
  end.

(** The instance [__init__] has built when it calls
    [_discover_token_endpoint], and with the endpoint stored. *)
Definition built (hostname client_id client_secret : string)
    (oauth_endpoints : OAuthEndpointCollection) (scopes : option Iterable)
    (refresh_margin request_timeout : Z) (token_endpoint : json) : Provider :=
  {| _hostname := _normalize_hostname hostname;
     _client_id := client_id;
     _client_secret := client_secret;
     _scopes := get_scopes_mapping oauth_endpoints (scope_tuple scopes);
     _refresh_margin := refresh_margin;
     _request_timeout := request_timeout;
     _access_token := JNull;
     _expires_at := 0;
     _token_endpoint := token_endpoint |}.

(** A discovery answer: status fine, the given JSON body. *)
Definition discovery_answer (body : json) : outcome :=
  Returns {| raise_for_status_raises := false; json_body := Some body |}.

(** A discovery answer that names a token endpoint, and one whose JSON
    is an empty array. *)
Definition discovery_ok : outcome :=
  discovery_answer
    (JObj (list_to_map
             [("token_endpoint",
               JStr "https://dbc.cloud.databricks.com/oidc/v1/token")])).
Definition discovery_array : outcome := discovery_answer (JArr []).

(** A token response without [expires_in]. *)
Definition answer_no_lifetime : Response :=
  token_response [("access_token", JStr "t1")].


(** The refresh test: the header factory called with the clock set to
    0, then to 2, then to 6; the three results with the states reached. *)
Definition refresh_test `{Platform} (me : Provider) (w : World)
  : ((exn + gmap string string) * State)
    * ((exn + gmap string string) * State)
    * ((exn + gmap string string) * State) :=
  let s1 := header_factory (me, set_clock 0 w) in
  let s2 := header_factory (fst (snd s1), set_clock 2 (snd (snd s1))) in
  let s3 := header_factory (fst (snd s2), set_clock 6 (snd (snd s2))) in
  (s1, s2, s3).

(** What the test asserts, [before] being the number of token requests
    sent before it starts. *)
Definition refresh_test_passes (before : nat)
    (run : ((exn + gmap string string) * State)
           * ((exn + gmap string string) * State)
           * ((exn + gmap string string) * State)) : Prop :=
  let '(s1, s2, s3) := run in
  fst s1 = inr {[ "Authorization" := "Bearer t1" ]}
  /\ length (posts (snd (snd s1))) = S before
  /\ fst s2 = inr {[ "Authorization" := "Bearer t1" ]}
  /\ length (posts (snd (snd s2))) = S before
  /\ fst s3 = inr {[ "Authorization" := "Bearer t2" ]}
  /\ length (posts (snd (snd s3))) = S (S before).

(** The outcome of [int(v)] alone: the integer, or the exception. *)
Definition int_result `{Platform} (v : json) : exn + Z := fst (py_int v tt).

(** The cache holds a usable token at time [now]: a token is there
    and [now < expiry - refresh_margin]. *)
Definition cache_valid (me : Provider) (now : Z) : bool :=
  truthy (_access_token me) && Z.ltb now (_expires_at me - _refresh_margin me).

(** The world after [_needs_refresh]: the clock is read only when a
    token is cached. *)
Definition checked (me : Provider) (w : World) : World :=
  if truthy (_access_token me) then tick w else w.

(** The header for a token. *)
Definition bearer `{Platform} (token : json) : gmap string string :=
  {[ "Authorization" := "Bearer " ++ py_str token ]}.

(** *** The response double of the unit tests *)

(** [DummyResponse(payload, status_code)]: [raise_for_status] raises
    unless [200 <= status_code < 300]; [json()] returns the payload. *)
Definition DummyResponse (payload : json) (status_code : Z) : Response :=
  {| raise_for_status_raises :=
       negb (Z.leb 200 status_code && Z.ltb status_code 300);
     json_body := Some payload |}.

(** *** The helpers of the end-to-end tests *)

(** [s.lstrip(c)] for a single character [c]. *)
Fixpoint lstrip (c : ascii) (s : string) : string :=
  match s with
  | EmptyString => EmptyString
  | String a s' => if Ascii.eqb a c then lstrip c s' else s
  end.

Definition REQUIRED_ENV : list string :=
  ["DATABRICKS_SERVER_HOSTNAME";
   "DATABRICKS_HTTP_PATH";
   "DATABRICKS_CATALOG";
   "DATABRICKS_SCHEMA";
   "DATABRICKS_SP_CLIENT_ID";
   "DATABRICKS_SP_CLIENT_SECRET"].

(** [_load_env], [environ] being the process environment that
    [os.getenv] reads: the dict built (its items in insertion order), or
    the message [pytest.skip] is called with. *)
Definition _load_env (environ : gmap string string)
  : string + list (string * option string) :=
  let env := List.map (fun key => (key, environ !! key)) REQUIRED_ENV in
  let missing :=
    List.map fst (List.filter (fun kv => falsy_str (snd kv)) env) in
  match missing with
  | _ :: _ =>
      inl ("Service principal env vars missing: " ++ join ", " missing ++ ". "
           ++ "Populate test.env with workspace and service principal credentials.")
  | [] => inr env
  end.

(** [env[key]] on such a dict. *)
Fixpoint dict_item (env : list (string * option string)) (key : string)
  : exn + option string :=
  match env with
  | [] => inl KeyError
  | (k, v) :: rest => if String.eqb k key then inr v else dict_item rest key
  end.

(** [f"{v}"] for a value that is a [str] or [None]. *)
Definition format_optional (v : option string) : string :=
  match v with
  | Some s => s
  | None => "None"
  end.

(** [_build_url] *)
Definition _build_url (env : list (string * option string)) (extra_params : string)
  : exn + string :=
  match dict_item env "DATABRICKS_SP_CLIENT_ID",
        dict_item env "DATABRICKS_SP_CLIENT_SECRET",
        dict_item env "DATABRICKS_SERVER_HOSTNAME",
        dict_item env "DATABRICKS_HTTP_PATH",
        dict_item env "DATABRICKS_CATALOG",
        dict_item env "DATABRICKS_SCHEMA" with
  | inr client_id, inr client_secret, inr hostname, inr http_path,
    inr catalog, inr schema =>
      let base :=
        "databricks://"
        ++ format_optional client_id ++ ":" ++ format_optional client_secret
        ++ "@" ++ format_optional hostname
        ++ "?http_path=" ++ format_optional http_path
        ++ "&catalog=" ++ format_optional catalog
        ++ "&schema=" ++ format_optional schema
        ++ "&authentication=service_principal" in
      if String.eqb extra_params ""
      then inr base
      else inr (base ++ "&" ++ lstrip "&" extra_params)
  | _, _, _, _, _, _ => inl KeyError
  end.

(** An environment with the six variables set, and one that lacks the
    two credentials. *)
Definition environ_full : gmap string string :=
  list_to_map [("DATABRICKS_SERVER_HOSTNAME", "dbc.cloud.databricks.com");
               ("DATABRICKS_HTTP_PATH", "/sql/1");
               ("DATABRICKS_CATALOG", "main");
               ("DATABRICKS_SCHEMA", "test");
               ("DATABRICKS_SP_CLIENT_ID", "client-id");
               ("DATABRICKS_SP_CLIENT_SECRET", "secret")].

(** A token response whose token is the empty string, and a token
    answer with status 500 though its payload is well formed. *)
Definition answer_empty_token : Response :=
  token_response [("access_token", JStr ""); ("expires_in", JInt 5)].
Definition answer_500 : Response :=
  DummyResponse
    (JObj (list_to_map [("access_token", JStr "t1"); ("expires_in", JInt 5)])) 500.

(** *** The same lines on the float clock

    [time.time()] returns a binary64 float.  The arithmetic of
    [_needs_refresh] and of the last line of [_refresh_token] is then
    float arithmetic: the integer operand is converted first, which
    raises [OverflowError] when it is too large, and the sum and the
    difference are rounded to nearest, ties to even. *)

Module Binary64.

Definition prec : Z := 53.
Definition emax : Z := 1024.

(** The float nearest to an integer (an infinity past the range). *)
Definition of_Z (z : Z) : spec_float := binary_normalize prec emax z 0 false.

(** The conversion of the [int] operand in [float + int] and
    [float - int]. *)
Definition of_int (z : Z) : exn + spec_float :=
  match of_Z z with
  | S754_infinity _ => inl OverflowError
  | f => inr f
  end.

(** [x + z] and [x - z] for a float [x] and an int [z]. *)
Definition add_int (x : spec_float) (z : Z) : exn + spec_float :=
  match of_int z with
  | inl e => inl e
  | inr y => inr (SFadd prec emax x y)
  end.



End Binary64.


(** The two assignments that end [_refresh_token], when the clock reads
    the float [now]: the cache is the pair of [_access_token] and
    [_expires_at].  The token is assigned first; the expiry only if the
    sum can be computed. *)
Definition store_on_float_clock (access_token : json) (expires_in margin : Z)
    (now : spec_float) (cache : json * spec_float)
  : (exn + unit) * (json * spec_float) :=
  let cache := (access_token, snd cache) in
  match Binary64.add_int now (Z.max expires_in (margin + 1)) with
  | inl e => (inl e, cache)
  | inr expires_at => (inr tt, (access_token, expires_at))
  end.

(** ** Facts about the operations *)

Section Facts.
Context `{Platform}.

(** Reading the lifetime never touches the state. *)
Lemma parse_expires_in_state {S} (parsed : json) (s : S) :
  snd (parse_expires_in parsed s) = s.
Proof.
  unfold parse_expires_in, bind, try_except, dict_get.
  destruct parsed; try reflexivity.
  cbn. destruct (default (JInt 3600) (m !! "expires_in")) as [| | | f | str | |];
    cbn; try reflexivity.
  - destruct f; reflexivity.
  - destruct (int_of_str str); reflexivity.
Qed.


(** What [_refresh_token] does, by the answer of the network. *)
Lemma refresh_token_unfold (me : Provider) (w : World) :
  _refresh_token (me, w) =
  let w1 := log_post (token_request me) w in
  match net_post w (length (posts w)) (token_request me) with
  | Raises => (inl RequestException, (me, w1))
  | Returns r =>
      if raise_for_status_raises r
      then (inl (ServicePrincipalAuthenticationError
                   "Failed to retrieve OAuth token for service principal"), (me, w1))
      else
        match json_body r with
        | Some (JObj m) =>
            match m !! "access_token" with
            | Some token =>
                match fst (parse_expires_in (JObj m) (me, w1)) with
                | inr expires_in =>
                    (inr tt,
                     (with_cache token
                        (clock w (ticks w)
                         + Z.max expires_in (_refresh_margin me + 1)) me,
                      tick w1))
                | inl e => (inl e, (me, w1))
                end
            | None =>
                (inl (ServicePrincipalAuthenticationError
                        "OAuth response did not include an access token"), (me, w1))
            end
        | _ =>
            (inl (ServicePrincipalAuthenticationError
                    "OAuth response did not include an access token"), (me, w1))
        end
  end.
Proof.
  unfold _refresh_token, bind, self, in_world, requests_post, token_request.
  cbn -[parse_expires_in].
  destruct (net_post w _ _) as [|r]; [reflexivity|].
  unfold try_except, raise_for_status, response_json, getitem, bind, ret, raise, Exception.
  destruct (raise_for_status_raises r); [reflexivity|].
  destruct (json_body r) as [[| | | | | |m]|]; try reflexivity.
  destruct (m !! "access_token") as [token|]; [|reflexivity].
  pose proof (parse_expires_in_state (JObj m)
                (me, log_post (token_request me) w)) as Hs.
  unfold token_request in Hs.
  destruct (parse_expires_in (JObj m) _) as [[e|n] s'] eqn:E; cbn in Hs; subst s'.
  - reflexivity.
  - destruct me; reflexivity.
Qed.

(** What [_get_token] does, by the state of the cache. *)
Lemma get_token_unfold (me : Provider) (w : World) :
  _get_token (me, w) =
  if cache_valid me (clock w (ticks w))
  then (inr (_access_token me), (me, tick w))
  else
    match _refresh_token (me, checked me w) with
    | (inr _, (me', w')) =>
        if truthy (_access_token me')
        then (inr (_access_token me'), (me', w'))
        else (inl AssertionError, (me', w'))
    | (inl e, s) => (inl e, s)
    end.
Proof.
  unfold _get_token, _needs_refresh, cache_valid, checked, bind, self,
    in_world, time_time, ret, raise.
  destruct (truthy (_access_token me)) eqn:Etok; cbn -[_refresh_token truthy].
  - rewrite Z.geb_leb.
    destruct (Z.ltb_spec (clock w (ticks w)) (_expires_at me - _refresh_margin me));
      destruct (Z.leb_spec (_expires_at me - _refresh_margin me) (clock w (ticks w)));
      try lia.
    + rewrite Etok. reflexivity.
    + destruct (_refresh_token (me, tick w)) as [[e|[]] [me' w']];
        [reflexivity|]. destruct (truthy (_access_token me')); reflexivity.
  - destruct (_refresh_token (me, w)) as [[e|[]] [me' w']];
      [reflexivity|]. destruct (truthy (_access_token me')); reflexivity.
Qed.

Lemma header_factory_unfold (me : Provider) (w : World) :
  header_factory (me, w) =
  match _get_token (me, w) with
  | (inr token, s) => (inr (bearer token), s)
  | (inl e, s) => (inl e, s)
  end.
Proof. reflexivity. Qed.

(** A failed or successful refresh logs exactly one token request and
    leaves the oracles alone. *)
Lemma refresh_token_world (me : Provider) (w : World) :
  let w' := snd (snd (_refresh_token (me, w))) in
  posts w' = (posts w ++ [token_request me])%list
  /\ clock w' = clock w /\ net_post w' = net_post w /\ gets w' = gets w.
Proof.
  rewrite refresh_token_unfold. cbn zeta.
  destruct (net_post w _ _) as [|r]; [cbn; auto|].
  destruct (raise_for_status_raises r); [cbn; auto|].
  destruct (json_body r) as [[| | | | | |m]|]; try (cbn; auto; fail).
  destruct (m !! "access_token"); [|cbn; auto].
  destruct (fst (parse_expires_in _ _)); cbn; auto.
Qed.

(** Whatever happens, [_refresh_token] changes nothing of the instance
    but the cache. *)
Lemma refresh_token_config (me : Provider) (w : World) :
  let me' := fst (snd (_refresh_token (me, w))) in
  _token_endpoint me' = _token_endpoint me
  /\ _refresh_margin me' = _refresh_margin me
  /\ _request_timeout me' = _request_timeout me
  /\ _scopes me' = _scopes me
  /\ _client_id me' = _client_id me
  /\ _client_secret me' = _client_secret me.
Proof.
  rewrite refresh_token_unfold. cbn zeta.
  destruct (net_post w _ _) as [|r]; [cbn; auto 10|].
  destruct (raise_for_status_raises r); [cbn; auto 10|].
  destruct (json_body r) as [[| | | | | |m]|]; try (cbn; auto 10; fail).
  destruct (m !! "access_token"); [|cbn; auto 10].
  destruct (fst (parse_expires_in _ _)); cbn; auto 10.
Qed.

End Facts.

(** ** Reading the token: cache or refresh *)

Section TokenReads.
Context `{Platform}.

(** A read inside the validity window returns the cached token, reads
    the clock once and sends nothing. *)
Lemma read_cached (me : Provider) (w : World) :
  cache_valid me (clock w (ticks w)) = true ->
  header_factory (me, w) = (inr (bearer (_access_token me)), (me, tick w)).
Proof.
  intros Hv. rewrite header_factory_unfold, get_token_unfold, Hv. reflexivity.
Qed.

(** A read outside the window runs [_refresh_token] once, on the world
    the check left. *)
Lemma read_stale (me : Provider) (w : World) :
  cache_valid me (clock w (ticks w)) = false ->
  header_factory (me, w) =
  match _refresh_token (me, checked me w) with
  | (inr _, (me', w')) =>
      if truthy (_access_token me')
      then (inr (bearer (_access_token me')), (me', w'))
      else (inl AssertionError, (me', w'))
  | (inl e, s) => (inl e, s)
  end.
Proof.
  intros Hv. rewrite header_factory_unfold, get_token_unfold, Hv.
  destruct (_refresh_token _) as [[e|[]] [me' w']]; [reflexivity|].
  destruct (truthy (_access_token me')); reflexivity.
Qed.

Lemma checked_fields (me : Provider) (w : World) :
  posts (checked me w) = posts w /\ clock (checked me w) = clock w
  /\ net_post (checked me w) = net_post w.
Proof. unfold checked. destruct (truthy _); auto. Qed.




End TokenReads.

(** ** The claims about the token cache *)

Section Cache.
Context `{Platform}.




End Cache.

(** ** The refresh test, step by step *)

Section Scenario.
Context `{Platform}.

(** A well-formed answer with an integer lifetime is stored. *)
Lemma refresh_token_ok (me : Provider) (w : World) resp m token z :
  net_post w (length (posts w)) (token_request me) = Returns resp ->
  raise_for_status_raises resp = false ->
  json_body resp = Some (JObj m) ->
  m !! "access_token" = Some token ->
  m !! "expires_in" = Some (JInt z) ->
  _refresh_token (me, w) =
  (inr tt, (with_cache token (clock w (ticks w) + Z.max z (_refresh_margin me + 1)) me,
            tick (log_post (token_request me) w))).
Proof.
  intros Hnet Hst Hbody Htok Hexp. rewrite refresh_token_unfold. cbn zeta.
  rewrite Hnet, Hst, Hbody, Htok.
  unfold parse_expires_in, dict_get, bind, ret. rewrite Hexp. reflexivity.
Qed.

(** C4. With margin 0 and nothing cached, when the next two token
    requests are answered with [t1] and [t2], both with lifetime 5: the
    header factory called with the clock at 0 returns [Bearer t1] after
    one token request; called again at 2 it returns [Bearer t1] and
    sends nothing; called at 6 it returns [Bearer t2] after a second
    request. *)
Theorem refresh_scenario (me : Provider) (w : World) :
  truthy (_access_token me) = false ->
  _refresh_margin me = 0 ->
  (forall req, net_post w (length (posts w)) req = Returns answer_t1) ->
  (forall req, net_post w (S (length (posts w))) req = Returns answer_t2) ->
  refresh_test_passes (length (posts w)) (refresh_test me w).
Proof.
  intros Hnone Hmargin Hfirst Hsecond.
  set (me1 := with_cache (JStr "t1") 5 me).
  set (w1 := tick (log_post (token_request me) (set_clock 0 w))).
  assert (E1 : header_factory (me, set_clock 0 w)
               = (inr {[ "Authorization" := "Bearer t1" ]}, (me1, w1))).
  { rewrite read_stale by (unfold cache_valid; rewrite Hnone; reflexivity).
    unfold checked. rewrite Hnone.
    rewrite (refresh_token_ok me (set_clock 0 w) answer_t1 _ (JStr "t1") 5
               (Hfirst _) eq_refl eq_refl eq_refl eq_refl).
    rewrite Hmargin. reflexivity. }
  set (w2 := tick (set_clock 2 w1)).
  assert (E2 : header_factory (me1, set_clock 2 w1)
               = (inr {[ "Authorization" := "Bearer t1" ]}, (me1, w2))).
  { rewrite read_cached; [reflexivity|].
    unfold cache_valid, me1. cbn. rewrite Hmargin. reflexivity. }
  set (me3 := with_cache (JStr "t2") 11 me1).
  set (w3 := tick (log_post (token_request me1) (tick (set_clock 6 w2)))).
  assert (E3 : header_factory (me1, set_clock 6 w2)
               = (inr {[ "Authorization" := "Bearer t2" ]}, (me3, w3))).
  { rewrite read_stale
      by (unfold cache_valid, me1; cbn; rewrite Hmargin; reflexivity).
    unfold checked. cbn [me1 with_cache _access_token truthy String.eqb negb].
    assert (Hnet : net_post (tick (set_clock 6 w2))
                     (length (posts (tick (set_clock 6 w2)))) (token_request me1)
                   = Returns answer_t2).
    { cbn. rewrite length_app. cbn. rewrite Nat.add_1_r. apply Hsecond. }
    rewrite (refresh_token_ok me1 (tick (set_clock 6 w2)) answer_t2 _ (JStr "t2") 5
               Hnet eq_refl eq_refl eq_refl eq_refl).
    cbn [me1 with_cache _refresh_margin]. rewrite Hmargin. reflexivity. }
  unfold refresh_test_passes, refresh_test.
  cbn zeta. rewrite E1. cbn [fst snd]. rewrite E2. cbn [fst snd]. rewrite E3.
  cbn [fst snd]. unfold w3, w2, w1. cbn. rewrite !length_app. cbn.
  rewrite !Nat.add_1_r. auto 10.
Qed.

End Scenario.

(** ** Token lifetime *)

Section Lifetime.
Context `{Platform}.

(** [int] does not look at the state. *)
Lemma py_int_pure {S} (v : json) (s : S) : py_int v s = (int_result v, s).
Proof.
  unfold int_result.
  destruct v as [| | | f | str | |]; try reflexivity.
  - destruct f; reflexivity.
  - cbn. destruct (int_of_str str); reflexivity.
Qed.

(** The lifetime read, by what [int] makes of the field. *)
Lemma parse_expires_in_cases {S} (m : gmap string json) (s : S) :
  parse_expires_in (JObj m) s =
  match m !! "expires_in" with
  | None => (inr 3600, s)
  | Some v =>
      match int_result v with
      | inr z => (inr z, s)
      | inl e => if TypeError_or_ValueError e then (inr 3600, s) else (inl e, s)
      end
  end.
Proof.
  unfold parse_expires_in, dict_get, bind, try_except, ret.
  destruct (m !! "expires_in") as [v|]; cbn [default from_option]; unfold id.
  - rewrite py_int_pure. destruct (int_result v) as [e|z]; reflexivity.
  - reflexivity.
Qed.

(** A lifetime that is absent, or on which [int] raises [TypeError]
    ([null], an array, an object) or [ValueError] (a string that is no
    integer literal, the float NaN), reads as 3600: the read returns,
    with that value. *)
Theorem unconvertible_lifetime_is_3600 {S} (m : gmap string json) (s : S) :
  m !! "expires_in" = None
  \/ (exists v, m !! "expires_in" = Some v
                /\ (v = JNull
                    \/ (exists l, v = JArr l)
                    \/ (exists o, v = JObj o)
                    \/ v = JFloat S754_nan
                    \/ (exists str, v = JStr str /\ int_of_str str = None))) ->
  parse_expires_in (JObj m) s = (inr 3600, s).
Proof.
  rewrite parse_expires_in_cases.
  intros [-> | (v & -> & Hv)]; [reflexivity|].
  unfold int_result.
  destruct Hv as [-> | [(l & ->) | [(o & ->) | [-> | (str & -> & Hstr)]]]];
    cbn; try reflexivity.
  rewrite Hstr. reflexivity.
Qed.

(** C5 on the code: an [expires_in] that is an infinite float (as the
    JSON number [1e999] decodes) is present and not convertible to an
    integer, yet it does not read as 3600: [int] raises [OverflowError],
    the [except] clause names only [TypeError] and [ValueError], and the
    lifetime read ends with that exception. *)
Theorem infinite_lifetime_not_defaulted {S} (m : gmap string json) (b : bool) (s : S) :
  m !! "expires_in" = Some (JFloat (S754_infinity b)) ->
  int_result (JFloat (S754_infinity b)) = inl OverflowError
  /\ TypeError_or_ValueError OverflowError = false
  /\ parse_expires_in (JObj m) s = (inl OverflowError, s).
Proof.
  intros Hm. split; [reflexivity|]. split; [reflexivity|].
  rewrite parse_expires_in_cases, Hm. reflexivity.
Qed.

(** A token response whose [expires_in] is an infinite float makes
    [int] raise [OverflowError], which the [except] clause does not
    name: the refresh ends with that exception and stores nothing. *)
Theorem infinite_lifetime_overflows (me : Provider) (w : World) resp m token b :
  net_post w (length (posts w)) (token_request me) = Returns resp ->
  raise_for_status_raises resp = false ->
  json_body resp = Some (JObj m) ->
  m !! "access_token" = Some token ->
  m !! "expires_in" = Some (JFloat (S754_infinity b)) ->
  _refresh_token (me, w) = (inl OverflowError, (me, log_post (token_request me) w)).
Proof.
  intros Hnet Hst Hbody Htok Hexp. rewrite refresh_token_unfold. cbn zeta.
  rewrite Hnet, Hst, Hbody, Htok.
  unfold parse_expires_in, dict_get, bind, ret. rewrite Hexp. reflexivity.
Qed.

End Lifetime.

(** ** Construction *)

Section Construction.
Context `{Platform}.

(** What [_discover_token_endpoint] does, by the answer of the network. *)
Lemma discover_unfold (me : Provider) (eps : OAuthEndpointCollection) (w : World) :
  _discover_token_endpoint me eps w =
  let w1 := log_get (discovery_request me eps) w in
  let failed := ServicePrincipalAuthenticationError
                  "Failed to load Databricks OAuth configuration" in
  match net_get w (length (gets w)) (discovery_request me eps) with
  | Raises => (inl failed, w1)
  | Returns r =>
      if raise_for_status_raises r then (inl failed, w1)
      else
        match json_body r with
        | None => (inl failed, w1)
        | Some (JObj m) =>
            if truthy (default JNull (m !! "token_endpoint"))
            then (inr (default JNull (m !! "token_endpoint")), w1)
            else (inl (ServicePrincipalAuthenticationError
                         "OAuth configuration did not include a token endpoint"), w1)
        | Some _ => (inl AttributeError, w1)
        end
  end.
Proof.
  unfold _discover_token_endpoint, requests_get, try_except, bind, discovery_request.
  cbn zeta.
  destruct (net_get w _ _) as [|r]; [reflexivity|].
  unfold raise_for_status, response_json, raise, ret, Exception.
  destruct (raise_for_status_raises r); [reflexivity|].
  destruct (json_body r) as [[| | | | | |m]|]; try reflexivity.
  cbn. destruct (truthy _); reflexivity.
Qed.

(** What [__init__] does once its three checks pass and the endpoints
    are known. *)
Lemma init_unfold host cid secret eps scopes margin timeout (w : World) :
  falsy_str (Some host) = false ->
  falsy_str (Some cid) = false ->
  falsy_str (Some secret) = false ->
  get_oauth_endpoints (_normalize_hostname host) false = Some eps ->
  __init__ (Some host) (Some cid) (Some secret) scopes margin timeout w =
  match _discover_token_endpoint
          (built host cid secret eps scopes margin timeout JNull) eps w with
  | (inr token_endpoint, w1) =>
      (inr (built host cid secret eps scopes margin timeout token_endpoint), w1)
  | (inl e, w1) => (inl e, w1)
  end.
Proof.
  intros Hh Hi Hs Heps. unfold __init__. rewrite Hh, Hi, Hs.
  cbn -[_normalize_hostname _discover_token_endpoint]. rewrite Heps.
  reflexivity.
Qed.

(** C6. Construction with an empty or missing hostname, client id or
    client secret, or for a host whose OAuth endpoints cannot be
    determined, raises the configuration error; the world is untouched,
    so nothing was fetched. *)
Theorem init_rejects_incomplete_config
    (host cid secret : option string) scopes margin timeout (w : World) :
  falsy_str host = true \/ falsy_str cid = true \/ falsy_str secret = true
  \/ get_oauth_endpoints (_normalize_hostname (default "" host)) false = None ->
  exists msg,
    __init__ host cid secret scopes margin timeout w
    = (inl (ServicePrincipalConfigurationError msg), w).
Proof.
  intros Hbad. unfold __init__.
  destruct (falsy_str host) eqn:Hh; [eexists; reflexivity|].
  destruct (falsy_str cid) eqn:Hi; [eexists; reflexivity|].
  destruct (falsy_str secret) eqn:Hs; [eexists; reflexivity|].
  destruct Hbad as [?|[?|[?|Hnone]]]; try discriminate.
  cbv zeta. rewrite Hnone. eexists; reflexivity.
Qed.

(** The [scope] field of every token request is the space-joined
    mapped scopes. *)
Lemma token_payload_scope (me : Provider) :
  token_payload me !! "scope" = Some (join " " (_scopes me)).
Proof. unfold token_payload. cbn [list_to_map foldr]. by simplify_map_eq. Qed.

(** One read sends the instance's token request at most once and keeps
    that request the same for the next read. *)
Lemma read_step (me : Provider) (w : World) :
  let s := snd (header_factory (me, w)) in
  token_request (fst s) = token_request me
  /\ exists sent, posts (snd s) = (posts w ++ sent)%list
                  /\ Forall (eq (token_request me)) sent.
Proof.
  rewrite header_factory_unfold, get_token_unfold.
  destruct (cache_valid me _).
  - cbn. split; [reflexivity|]. exists []. rewrite app_nil_r. auto.
  - pose proof (refresh_token_world me (checked me w)) as (Hp & _).
    pose proof (refresh_token_config me (checked me w)) as (Hte & _ & Hto & Hsc & Hid & Hse).
    destruct (checked_fields me w) as (Hcp & _).
    destruct (_refresh_token _) as [[e|[]] [me' w']]; cbn in *.
    + split.
      * unfold token_request, token_payload. by rewrite Hte, Hto, Hsc, Hid, Hse.
      * exists [token_request me]. rewrite Hp, Hcp. auto.
    + assert (token_request me' = token_request me) as Hreq.
      { unfold token_request, token_payload. by rewrite Hte, Hto, Hsc, Hid, Hse. }
      destruct (truthy (_access_token me')); cbn;
        (split; [exact Hreq|]); exists [token_request me];
        rewrite Hp, Hcp; auto.
Qed.

(** Every request that a run of reads sends is the instance's token
    request: same endpoint, same form fields, same timeout. *)
Lemma reads_requests (n : nat) : forall (me : Provider) (w : World),
  exists sent,
    posts (snd (snd (reads n (me, w)))) = (posts w ++ sent)%list
    /\ Forall (eq (token_request me)) sent.
Proof.
  induction n as [|n IH]; intros me w.
  - exists []. cbn. rewrite app_nil_r. auto.
  - cbn [reads].
    pose proof (read_step me w) as (Hreq & sent1 & Hp1 & Hall1).
    destruct (header_factory (me, w)) as [r [me1 w1]]. cbn in Hreq, Hp1.
    destruct (IH me1 w1) as (sent2 & Hp2 & Hall2).
    destruct (reads n (me1, w1)) as [rs [me2 w2]]. cbn in Hp2 |- *.
    exists (sent1 ++ sent2)%list. rewrite Hp2, Hp1, app_assoc.
    split; [reflexivity|]. apply Forall_app. split; [exact Hall1|].
    rewrite <- Hreq. exact Hall2.
Qed.

(** [__init__] past its checks, by the answer to the discovery GET. *)
Lemma init_cases host cid secret eps scopes margin timeout (w : World) :
  falsy_str (Some host) = false ->
  falsy_str (Some cid) = false ->
  falsy_str (Some secret) = false ->
  get_oauth_endpoints (_normalize_hostname host) false = Some eps ->
  let req := {| get_url := get_openid_config_url eps (_normalize_hostname host);
                get_timeout := timeout |} in
  let failed := ServicePrincipalAuthenticationError
                  "Failed to load Databricks OAuth configuration" in
  __init__ (Some host) (Some cid) (Some secret) scopes margin timeout w =
  match net_get w (length (gets w)) req with
  | Raises => (inl failed, log_get req w)
  | Returns r =>
      if raise_for_status_raises r then (inl failed, log_get req w)
      else
        match json_body r with
        | None => (inl failed, log_get req w)
        | Some (JObj m) =>
            if truthy (default JNull (m !! "token_endpoint"))
            then (inr (built host cid secret eps scopes margin timeout
                         (default JNull (m !! "token_endpoint"))),
                  log_get req w)
            else (inl (ServicePrincipalAuthenticationError
                         "OAuth configuration did not include a token endpoint"),
                  log_get req w)
        | Some _ => (inl AttributeError, log_get req w)
        end
  end.
Proof.
  intros Hh Hi Hs Heps req failed.
  rewrite (init_unfold _ _ _ _ _ _ _ _ Hh Hi Hs Heps), discover_unfold.
  cbn zeta. unfold discovery_request. cbn [built _hostname _request_timeout].
  fold req. fold failed.
  destruct (net_get w (length (gets w)) req) as [|r]; [reflexivity|].
  destruct (raise_for_status_raises r); [reflexivity|].
  destruct (json_body r) as [[| | | | | |m]|]; try reflexivity.
  destruct (truthy _); reflexivity.
Qed.

(** Construction that passes its checks sends exactly one GET, to the
    OpenID configuration URL of the normalized host, and no POST; a GET
    that raises, an error status, a body that is not JSON, and a JSON
    object without a (non-empty) [token_endpoint] all end in the
    authentication error; and when construction succeeds the endpoint
    from the answer is stored and every later token request goes to
    it. *)
Theorem init_discovers_endpoint_once host cid secret eps scopes margin timeout
    (w : World) :
  falsy_str (Some host) = false ->
  falsy_str (Some cid) = false ->
  falsy_str (Some secret) = false ->
  get_oauth_endpoints (_normalize_hostname host) false = Some eps ->
  let run := __init__ (Some host) (Some cid) (Some secret) scopes margin timeout w in
  let req := {| get_url := get_openid_config_url eps (_normalize_hostname host);
                get_timeout := timeout |} in
  gets (snd run) = (gets w ++ [req])%list
  /\ posts (snd run) = posts w
  /\ (net_get w (length (gets w)) req = Raises
      \/ (exists r, net_get w (length (gets w)) req = Returns r
                    /\ (raise_for_status_raises r = true
                        \/ json_body r = None
                        \/ exists m, json_body r = Some (JObj m)
                                     /\ truthy (default JNull (m !! "token_endpoint"))
                                        = false)) ->
      exists msg, fst run = inl (ServicePrincipalAuthenticationError msg))
  /\ (forall me, fst run = inr me ->
      exists r m,
        net_get w (length (gets w)) req = Returns r
        /\ json_body r = Some (JObj m)
        /\ m !! "token_endpoint" = Some (_token_endpoint me)
        /\ forall n, Forall (fun sent => post_url sent = _token_endpoint me)
                       (drop (length (posts w))
                          (posts (snd (snd (reads n (me, snd run))))))).
Proof.
  intros Hh Hi Hs Heps run req. subst run.
  rewrite (init_cases _ _ _ _ _ _ _ _ Hh Hi Hs Heps). cbn zeta. fold req.
  split; [|split; [|split]].
  - destruct (net_get w _ req) as [|r]; [reflexivity|].
    destruct (raise_for_status_raises r); [reflexivity|].
    destruct (json_body r) as [[| | | | | |m]|]; try reflexivity.
    destruct (truthy _); reflexivity.
  - destruct (net_get w _ req) as [|r]; [reflexivity|].
    destruct (raise_for_status_raises r); [reflexivity|].
    destruct (json_body r) as [[| | | | | |m]|]; try reflexivity.
    destruct (truthy _); reflexivity.
  - intros [Hraise | (r & Hr & Hwhy)].
    + rewrite Hraise. eauto.
    + rewrite Hr. destruct Hwhy as [Hst | [Hnone | (m & Hm & Hte)]].
      * rewrite Hst. eauto.
      * destruct (raise_for_status_raises r); [eauto|]. rewrite Hnone. eauto.
      * destruct (raise_for_status_raises r); [eauto|]. rewrite Hm, Hte. eauto.
  - intros me Hme.
    destruct (net_get w _ req) as [|r]; [discriminate|].
    destruct (raise_for_status_raises r); [discriminate|].
    destruct (json_body r) as [[| | | | | |m]|] eqn:Hbody; try discriminate.
    destruct (m !! "token_endpoint") as [te|] eqn:Hte; [|discriminate].
    cbn [default from_option] in Hme |- *. unfold id in Hme |- *.
    destruct (truthy te); [|discriminate].
    cbn [fst snd] in Hme |- *. inversion Hme; subst me.
    cbn [built _token_endpoint].
    exists r, m. split; [reflexivity|]. split; [exact Hbody|].
    split; [exact Hte|]. intros n.
    destruct (reads_requests n
                (built host cid secret eps scopes margin timeout te)
                (log_get req w)) as (sent & Hp & Hall).
    rewrite Hp. cbn [log_get posts]. rewrite drop_app_length.
    eapply Forall_impl; [exact Hall|]. intros x <-. reflexivity.
Qed.

(** C7 on the code: when the discovery GET is answered with JSON that is
    not an object, [config.get] raises [AttributeError] outside the
    [try], and construction ends with that exception, not with the
    authentication error. *)
Theorem non_object_discovery_escapes host cid secret eps scopes margin timeout
    (w : World) r body :
  falsy_str (Some host) = false ->
  falsy_str (Some cid) = false ->
  falsy_str (Some secret) = false ->
  get_oauth_endpoints (_normalize_hostname host) false = Some eps ->
  net_get w (length (gets w))
    {| get_url := get_openid_config_url eps (_normalize_hostname host);
       get_timeout := timeout |} = Returns r ->
  raise_for_status_raises r = false ->
  json_body r = Some body ->
  (forall m, body <> JObj m) ->
  fst (__init__ (Some host) (Some cid) (Some secret) scopes margin timeout w)
  = inl AttributeError.
Proof.
  intros Hh Hi Hs Heps Hnet Hst Hbody Hobj.
  rewrite (init_cases _ _ _ _ _ _ _ _ Hh Hi Hs Heps). cbn zeta.
  rewrite Hnet, Hst, Hbody.
  destruct body; try reflexivity. exfalso. eapply Hobj. reflexivity.
Qed.

(** A constructed instance holds the mapped scope tuple, and its
    token request carries their join. *)
Lemma init_scopes host cid secret scopes margin timeout (w : World) me w1 :
  __init__ host cid secret scopes margin timeout w = (inr me, w1) ->
  exists eps,
    get_oauth_endpoints (_normalize_hostname (default "" host)) false = Some eps
    /\ _scopes me = get_scopes_mapping eps (scope_tuple scopes)
    /\ post_data (token_request me) !! "scope" = Some (join " " (_scopes me)).
Proof.
  unfold __init__.
  destruct (falsy_str host); [discriminate|].
  destruct (falsy_str cid); [discriminate|].
  destruct (falsy_str secret); [discriminate|].
  cbv zeta.
  destruct (get_oauth_endpoints _ false) as [eps|]; [|discriminate].
  unfold bind, ret.
  destruct (_discover_token_endpoint _ _ _) as [[e|te] w']; [discriminate|].
  intros Hme. inversion Hme; subst. exists eps.
  split; [reflexivity|]. split; [reflexivity|].
  apply token_payload_scope.
Qed.

(** With [scopes] left out, or an empty sized collection, the instance
    holds the mapped default scopes, and the [scope] field of its token
    request is their join. *)
Theorem scopes_default_when_falsy host cid secret scopes margin timeout
    (w : World) me w1 :
  scopes = None \/ scopes = Some (Sized []) ->
  __init__ host cid secret scopes margin timeout w = (inr me, w1) ->
  exists eps,
    get_oauth_endpoints (_normalize_hostname (default "" host)) false = Some eps
    /\ _scopes me = get_scopes_mapping eps DEFAULT_SCOPES
    /\ post_data (token_request me) !! "scope"
       = Some (join " " (get_scopes_mapping eps DEFAULT_SCOPES)).
Proof.
  intros Hfalsy Hrun.
  destruct (init_scopes _ _ _ _ _ _ _ _ _ Hrun) as (eps & Heps & Hsc & Hfield).
  exists eps. rewrite Hfield, Hsc.
  destruct Hfalsy as [-> | ->]; auto.
Qed.

(** C10 on the code: an empty iterator or generator passed as [scopes]
    is true, so the default is not taken: the empty tuple is mapped and
    the token request carries its join. *)
Theorem empty_iterator_scopes_not_defaulted host cid secret margin timeout
    (w : World) me w1 :
  __init__ host cid secret (Some (Iterator [])) margin timeout w = (inr me, w1) ->
  exists eps,
    get_oauth_endpoints (_normalize_hostname (default "" host)) false = Some eps
    /\ _scopes me = get_scopes_mapping eps []
    /\ post_data (token_request me) !! "scope"
       = Some (join " " (get_scopes_mapping eps [])).
Proof.
  intros Hrun.
  destruct (init_scopes _ _ _ _ _ _ _ _ _ Hrun) as (eps & Heps & Hsc & Hfield).
  exists eps. rewrite Hfield, Hsc. auto.
Qed.

End Construction.

(** ** Hostname normalization *)

Section Hostname.

Lemma rstrip_no_trailing (c : ascii) (s : string) :
  endswith_char c (rstrip c s) = false.
Proof.
  induction s as [|a s IH]; [reflexivity|].
  cbn [rstrip]. destruct (Ascii.eqb a c) eqn:Ea; cbn [andb].
  - destruct (rstrip c s) as [|b r] eqn:Er; [reflexivity|].
    cbn [String.eqb]. cbn [endswith_char]. exact IH.
  - destruct (rstrip c s) as [|b r] eqn:Er.
    + cbn. exact Ea.
    + cbn [endswith_char]. exact IH.
Qed.

(** The result never ends with a slash. *)
Lemma normalize_no_trailing_slash (hostname : string) :
  endswith_char "/" (_normalize_hostname hostname) = false.
Proof. unfold _normalize_hostname. apply rstrip_no_trailing. Qed.

(** A hostname given without the scheme gets it. *)
Lemma normalize_without_scheme (hostname : string) :
  startswith hostname "https://" = false ->
  _normalize_hostname hostname = rstrip "/" ("https://" ++ hostname).
Proof. intros Hs. unfold _normalize_hostname. rewrite Hs. reflexivity. Qed.

Lemma startswith_scheme (rest : string) :
  startswith ("https://" ++ rest) "https://" = true.
Proof. unfold startswith. destruct rest; vm_compute; reflexivity. Qed.

(** A hostname given with the scheme loses it: the scheme is cut off
    and the prefix put back is empty. *)
Lemma normalize_with_scheme (rest : string) :
  _normalize_hostname ("https://" ++ rest) = rstrip "/" rest.
Proof.
  unfold _normalize_hostname. rewrite startswith_scheme. reflexivity.
Qed.

(** What holds of the result on every input: no slash at the end; the
    scheme in front exactly when it was not given (slashes at the end
    then stripped from scheme and input together). *)
Theorem normalize_hostname_shape (hostname : string) :
  endswith_char "/" (_normalize_hostname hostname) = false
  /\ (startswith hostname "https://" = false ->
      _normalize_hostname hostname = rstrip "/" ("https://" ++ hostname)).
Proof.
  split; [apply normalize_no_trailing_slash | apply normalize_without_scheme].
Qed.

(** C8 on the code: [https://dbc.cloud.databricks.com] normalizes to
    [dbc.cloud.databricks.com], which does not begin with the scheme;
    and so does every hostname that is given with the scheme and a host
    that is not itself prefixed. *)
Theorem normalize_drops_given_scheme :
  _normalize_hostname "https://dbc.cloud.databricks.com"
  = "dbc.cloud.databricks.com"
  /\ startswith (_normalize_hostname "https://dbc.cloud.databricks.com") "https://"
     = false
  /\ forall rest, _normalize_hostname ("https://" ++ rest) = rstrip "/" rest.
Proof.
  split; [reflexivity|]. split; [reflexivity|]. apply normalize_with_scheme.
Qed.

End Hostname.

(** ** Worked instances

    Each statement above with a premise, run on the example provider of
    [dbc.cloud.databricks.com] against a scripted world. *)

Section Instances.

Local Existing Instance example_platform.




(** The refresh test itself. *)
Lemma refresh_scenario_instance :
  refresh_test_passes 0
    (refresh_test (example_provider 0)
       (scripted_world Raises [answer_t1; answer_t2])).
Proof.
  apply (refresh_scenario (example_provider 0)
           (scripted_world Raises [answer_t1; answer_t2]));
    try reflexivity; intros req; reflexivity.
Defined.

(** [{"access_token": "t1", "expires_in": 1e999}]: [OverflowError]. *)
Lemma infinite_lifetime_instance :
  _refresh_token (example_provider 60, scripted_world Raises [answer_infinite])
  = (inl OverflowError,
     (example_provider 60,
      log_post (token_request (example_provider 60))
        (scripted_world Raises [answer_infinite]))).
Proof.
  apply (infinite_lifetime_overflows (example_provider 60)
           (scripted_world Raises [answer_infinite]) answer_infinite
           (list_to_map [("access_token", JStr "t1");
                         ("expires_in", JFloat (S754_infinity false))])
           (JStr "t1") false); reflexivity.
Defined.

(** An empty hostname. *)
Lemma init_rejects_instance :
  exists msg,
    __init__ (Some "") (Some "client-id") (Some "secret") None 60 10
      (scripted_world discovery_ok [])
    = (inl (ServicePrincipalConfigurationError msg), scripted_world discovery_ok []).
Proof.
  apply init_rejects_incomplete_config. left. reflexivity.
Defined.

(** Discovery answered with [[]]. *)
Lemma non_object_discovery_instance :
  fst (__init__ (Some "dbc.cloud.databricks.com") (Some "client-id") (Some "secret")
         None 60 10 (scripted_world discovery_array []))
  = inl AttributeError.
Proof.
  apply (non_object_discovery_escapes "dbc.cloud.databricks.com" "client-id" "secret"
           plain_endpoints None 60 10 (scripted_world discovery_array [])
           {| raise_for_status_raises := false; json_body := Some (JArr []) |}
           (JArr []));
    try reflexivity.
  intros m. discriminate.
Defined.

(** [scopes=iter([])]: the token request carries an empty scope. *)
Lemma empty_iterator_instance :
  post_data
    (token_request
       (built "dbc.cloud.databricks.com" "client-id" "secret" plain_endpoints
          (Some (Iterator [])) 60 10
          (JStr "https://dbc.cloud.databricks.com/oidc/v1/token")))
    !! "scope" = Some "".
Proof.
  assert (E : __init__ (Some "dbc.cloud.databricks.com") (Some "client-id")
                (Some "secret") (Some (Iterator [])) 60 10
                (scripted_world discovery_ok [])
              = (inr (built "dbc.cloud.databricks.com" "client-id" "secret"
                        plain_endpoints (Some (Iterator [])) 60 10
                        (JStr "https://dbc.cloud.databricks.com/oidc/v1/token")),
                 log_get {| get_url := "https://dbc.cloud.databricks.com/oidc/.well-known/oauth-authorization-server";
                            get_timeout := 10 |}
                   (scripted_world discovery_ok [])))
    by (vm_compute; reflexivity).
  destruct (empty_iterator_scopes_not_defaulted _ _ _ _ _ _ _ _ E)
    as (eps & Heps & _ & Hfield).
  injection Heps as <-. exact Hfield.
Defined.

(** A response without [expires_in], and one where it is [null]. *)
Lemma unconvertible_lifetime_instance :
  parse_expires_in (JObj (list_to_map [("access_token", JStr "t1")])) tt
  = (inr 3600, tt)
  /\ parse_expires_in
       (JObj (list_to_map [("access_token", JStr "t1"); ("expires_in", JNull)])) tt
     = (inr 3600, tt).
Proof.
  split.
  - apply unconvertible_lifetime_is_3600. left. reflexivity.
  - apply unconvertible_lifetime_is_3600. right. exists JNull.
    split; [reflexivity | left; reflexivity].
Defined.

(** [{"access_token": "t1", "expires_in": 1e999}]: the lifetime read
    raises. *)
Lemma infinite_lifetime_not_defaulted_instance :
  parse_expires_in
    (JObj (list_to_map [("access_token", JStr "t1");
                        ("expires_in", JFloat (S754_infinity false))])) tt
  = (inl OverflowError, tt).
Proof.
  exact (proj2 (proj2 (infinite_lifetime_not_defaulted
                         (list_to_map [("access_token", JStr "t1");
                                       ("expires_in", JFloat (S754_infinity false))])
                         false tt eq_refl))).
Defined.

(** Construction against a discovery answer that names the endpoint:
    one GET, no POST. *)
Lemma init_discovers_instance :
  gets (snd (__init__ (Some "dbc.cloud.databricks.com") (Some "client-id")
               (Some "secret") None 60 10 (scripted_world discovery_ok [])))
  = [{| get_url := "https://dbc.cloud.databricks.com/oidc/.well-known/oauth-authorization-server";
        get_timeout := 10 |}].
Proof.
  exact (proj1 (init_discovers_endpoint_once "dbc.cloud.databricks.com" "client-id"
                  "secret" plain_endpoints None 60 10
                  (scripted_world discovery_ok [])
                  eq_refl eq_refl eq_refl eq_refl)).
Defined.

(** [scopes=None]: the token request asks for [sql]. *)
Lemma scopes_default_instance :
  post_data
    (token_request
       (built "dbc.cloud.databricks.com" "client-id" "secret" plain_endpoints
          None 60 10 (JStr "https://dbc.cloud.databricks.com/oidc/v1/token")))
    !! "scope" = Some "sql".
Proof.
  assert (E : __init__ (Some "dbc.cloud.databricks.com") (Some "client-id")
                (Some "secret") None 60 10 (scripted_world discovery_ok [])
              = (inr (built "dbc.cloud.databricks.com" "client-id" "secret"
                        plain_endpoints None 60 10
                        (JStr "https://dbc.cloud.databricks.com/oidc/v1/token")),
                 log_get {| get_url := "https://dbc.cloud.databricks.com/oidc/.well-known/oauth-authorization-server";
                            get_timeout := 10 |}
                   (scripted_world discovery_ok [])))
    by (vm_compute; reflexivity).
  destruct (scopes_default_when_falsy _ _ _ _ _ _ _ _ _ (or_introl eq_refl) E)
    as (eps & Heps & _ & Hfield).
  injection Heps as <-. exact Hfield.
Defined.

(** A hostname given bare. *)
Lemma normalize_shape_instance :
  _normalize_hostname "dbc.cloud.databricks.com/"
  = "https://dbc.cloud.databricks.com".
Proof.
  exact (proj2 (normalize_hostname_shape "dbc.cloud.databricks.com/") eq_refl).
Defined.

End Instances.

(** ** Edges of a token read *)

Section Edges.
Context `{Platform}.

(** A token request that cannot be sent. [requests.post] is called
    outside any [try]: when it raises (connection error, timeout) on a
    read that has to refresh, the exception of [requests] reaches the
    caller as it is, not as the authentication error; the request counts
    as sent and the instance is as before. *)
Theorem post_failure_propagates (me : Provider) (w : World) :
  cache_valid me (clock w (ticks w)) = false ->
  net_post w (length (posts w)) (token_request me) = Raises ->
  header_factory (me, w)
  = (inl RequestException, (me, log_post (token_request me) (checked me w))).
Proof.
  intros Hv Hnet. rewrite (read_stale _ _ Hv), refresh_token_unfold. cbn zeta.
  destruct (checked_fields me w) as (Hp & _ & Hn).
  rewrite Hn, Hp, Hnet. reflexivity.
Qed.

(** A token response whose [access_token] is false (the empty string,
    [null], [0], [false], an empty array or object) is stored all the
    same; the read then fails on the [assert], and the cache it leaves
    is valid at no time, so every later read asks again.  (The lifetime
    and the margin are taken within the range of a float, so that the
    expiry can be computed whatever the clock returns.) *)
Theorem falsy_token_stored_then_rejected (me : Provider) (w : World)
    resp m token expires_in :
  cache_valid me (clock w (ticks w)) = false ->
  net_post w (length (posts w)) (token_request me) = Returns resp ->
  raise_for_status_raises resp = false ->
  json_body resp = Some (JObj m) ->
  m !! "access_token" = Some token ->
  truthy token = false ->
  (forall s : State, parse_expires_in (JObj m) s = (inr expires_in, s)) ->
  Z.abs (Z.max expires_in (_refresh_margin me + 1)) < 2 ^ 1023 ->
  exists me' w',
    header_factory (me, w) = (inl AssertionError, (me', w'))
    /\ _access_token me' = token
    /\ forall t, cache_valid me' t = false.
Proof.
  intros Hv Hnet Hst Hbody Htok Hfalsy Hexp _.
  rewrite (read_stale _ _ Hv), refresh_token_unfold. cbn zeta.
  destruct (checked_fields me w) as (Hp & Hc & Hn).
  rewrite Hn, Hp, Hnet, Hst, Hbody, Htok, Hexp, Hc. cbn [fst].
  cbn [with_cache _access_token]. rewrite Hfalsy.
  eexists _, _. split; [reflexivity|]. cbn [with_cache _access_token].
  split; [reflexivity|].
  intros t. unfold cache_valid. cbn [with_cache _access_token]. rewrite Hfalsy.
  reflexivity.
Qed.

(** The lifetime read fails in one case only. *)
Lemma parse_expires_in_failure {S} (m : gmap string json) (s s' : S) e :
  parse_expires_in (JObj m) s = (inl e, s') ->
  e = OverflowError
  /\ exists b, m !! "expires_in" = Some (JFloat (S754_infinity b)).
Proof.
  rewrite parse_expires_in_cases.
  destruct (m !! "expires_in") as [v|]; [|discriminate].
  unfold int_result.
  destruct v as [| | | f | str | |]; cbn; try discriminate.
  - destruct f as [sg | sg | | sg mant ex]; cbn; try discriminate.
    intros Hrun. inversion Hrun; subst. split; [reflexivity|].
    exists sg. reflexivity.
  - destruct (int_of_str str); cbn; discriminate.
Qed.

(** Reading the lifetime (from [parsed.get] to the end of the [try]
    around [int]) fails in one case only: [expires_in] is an infinite
    float, and the exception is [OverflowError].  Every other value, of
    whatever JSON type, gives a lifetime. *)
Theorem lifetime_read_fails_only_on_infinity {S} (m : gmap string json)
    (s s' : S) e :
  parse_expires_in (JObj m) s = (inl e, s') ->
  e = OverflowError
  /\ exists b, m !! "expires_in" = Some (JFloat (S754_infinity b)).
Proof. apply parse_expires_in_failure. Qed.

(** A read raises nothing but the exception of [requests], the
    authentication error, [OverflowError] and [AssertionError]: no
    [KeyError], [TypeError], [ValueError] or [AttributeError] comes out
    of a malformed answer, and never the configuration error. *)
Theorem read_exceptions (me : Provider) (w : World) e s :
  header_factory (me, w) = (inl e, s) ->
  e = RequestException
  \/ (exists msg, e = ServicePrincipalAuthenticationError msg)
  \/ e = OverflowError
  \/ e = AssertionError.
Proof.
  rewrite header_factory_unfold, get_token_unfold.
  destruct (cache_valid me _); [discriminate|].
  rewrite refresh_token_unfold. cbn zeta.
  destruct (net_post _ _ _) as [|resp].
  { intros Hrun. inversion Hrun. auto. }
  destruct (raise_for_status_raises resp).
  { intros Hrun. inversion Hrun. eauto. }
  destruct (json_body resp) as [[| | | | | |m]|];
    try (intros Hrun; inversion Hrun; eauto; fail).
  destruct (m !! "access_token") as [token|];
    [|intros Hrun; inversion Hrun; eauto].
  destruct (parse_expires_in (JObj m) _) as [[e'|z] s'] eqn:Eexp; cbn [fst].
  - apply parse_expires_in_failure in Eexp as [-> _].
    intros Hrun. inversion Hrun. auto.
  - cbn [with_cache _access_token]. destruct (truthy token); [discriminate|].
    intros Hrun. inversion Hrun. auto.
Qed.

End Edges.

(** ** What reads leave alone *)

Section Frame.
Context `{Platform}.

(** One read: no GET, at most one POST, the clock oracle and every
    attribute but the cache as before. *)
Lemma read_frame (me : Provider) (w : World) :
  let s := snd (header_factory (me, w)) in
  gets (snd s) = gets w
  /\ (length (posts (snd s)) <= S (length (posts w)))%nat
  /\ (length (posts w) <= length (posts (snd s)))%nat
  /\ clock (snd s) = clock w
  /\ with_cache (_access_token me) (_expires_at me) (fst s) = me.
Proof.
  rewrite header_factory_unfold, get_token_unfold.
  destruct (cache_valid me _).
  - cbn. destruct me; cbn. auto 10.
  - pose proof (refresh_token_world me (checked me w)) as (Hp & Hc & _ & Hg).
    pose proof (refresh_token_config me (checked me w))
      as (Hte & Hm & Hto & Hsc & Hid & Hse).
    assert (Hh : _hostname (fst (snd (_refresh_token (me, checked me w))))
                 = _hostname me).
    { rewrite refresh_token_unfold. cbn zeta.
      destruct (net_post _ _ _) as [|r]; [reflexivity|].
      destruct (raise_for_status_raises r); [reflexivity|].
      destruct (json_body r) as [[| | | | | |m]|]; try reflexivity.
      destruct (m !! "access_token"); [|reflexivity].
      destruct (fst (parse_expires_in _ _)); reflexivity. }
    assert (Hck : gets (checked me w) = gets w /\ posts (checked me w) = posts w
                  /\ clock (checked me w) = clock w)
      by (unfold checked; destruct (truthy _); auto).
    destruct Hck as (Hcg & Hcp & Hcc).
    assert (Hall : forall st : State,
               st = snd (_refresh_token (me, checked me w)) ->
               gets (snd st) = gets w
               /\ (length (posts (snd st)) <= S (length (posts w)))%nat
               /\ (length (posts w) <= length (posts (snd st)))%nat
               /\ clock (snd st) = clock w
               /\ with_cache (_access_token me) (_expires_at me) (fst st) = me).
    { intros st ->. rewrite Hg, Hcg, Hp, Hcp, Hc, Hcc, length_app. cbn [length].
      repeat (split; [first [reflexivity | lia]|]).
      unfold with_cache. rewrite Hh, Hte, Hm, Hto, Hsc, Hid, Hse.
      destruct me; reflexivity. }
    destruct (_refresh_token (me, checked me w)) as [[e|[]] [me' w']];
      cbn [snd fst] in *.
    + apply (Hall (me', w')). reflexivity.
    + destruct (truthy (_access_token me')); apply (Hall (me', w')); reflexivity.
Qed.

(** Any number of reads: discovery is never run again (no GET), at most
    one token request goes out per read, and the hostname, client id,
    client secret, scopes, refresh margin, request timeout and token
    endpoint of the instance are as they were. *)
Theorem reads_frame (n : nat) (me : Provider) (w : World) :
  let run := reads n (me, w) in
  length (fst run) = n
  /\ gets (snd (snd run)) = gets w
  /\ (length (posts w) <= length (posts (snd (snd run))) <= length (posts w) + n)%nat
  /\ clock (snd (snd run)) = clock w
  /\ with_cache (_access_token me) (_expires_at me) (fst (snd run)) = me.
Proof.
  revert me w. induction n as [|n IH]; intros me w.
  - cbn. destruct me; cbn. repeat split; auto; lia.
  - cbn [reads].
    pose proof (read_frame me w) as (Hg & Hp & Hp' & Hc & Hme).
    destruct (header_factory (me, w)) as [r [me1 w1]]. cbn [fst snd] in *.
    specialize (IH me1 w1). cbn zeta in IH.
    destruct (reads n (me1, w1)) as [rs [me2 w2]]. cbn [fst snd] in *.
    destruct IH as (Hlen & Hg2 & Hp2 & Hc2 & Hme2).
    cbn [length]. rewrite Hlen, Hg2, Hg, Hc2, Hc.
    split; [reflexivity|]. split; [reflexivity|]. split; [lia|].
    split; [reflexivity|].
    transitivity (with_cache (_access_token me) (_expires_at me) me1);
      [|exact Hme].
    rewrite <- Hme2. reflexivity.
Qed.

End Frame.

(** ** How long a fetched token is served *)

Section Window.
Context `{Platform}.

(** On a clock that reads integers: after a refresh that stored a token
    at clock reading [now], with lifetime [expires_in] read from the
    answer, the token is served exactly at the readings
    [t < now + max(expires_in - margin, 1)]: for the lifetime less the
    margin, and for one second at least. *)
Theorem validity_window_length (me : Provider) (w : World) me' w'
    resp parsed expires_in :
  _refresh_token (me, w) = (inr tt, (me', w')) ->
  net_post w (length (posts w)) (token_request me) = Returns resp ->
  json_body resp = Some parsed ->
  (forall s : State, parse_expires_in parsed s = (inr expires_in, s)) ->
  truthy (_access_token me') = true ->
  forall t, cache_valid me' t
            = Z.ltb t (clock w (ticks w)
                       + Z.max (expires_in - _refresh_margin me) 1).
Proof.
  intros Hrun Hnet Hbody Hexp Ht.
  rewrite refresh_token_unfold in Hrun. cbn zeta in Hrun.
  rewrite Hnet, Hbody in Hrun.
  destruct (raise_for_status_raises resp); [discriminate|].
  destruct parsed as [| | | | | |m]; try discriminate.
  destruct (m !! "access_token") as [token|]; [|discriminate].
  rewrite Hexp in Hrun. cbn [fst] in Hrun. inversion Hrun; subst me' w'.
  cbn [with_cache _access_token] in Ht.
  intros t. unfold cache_valid.
  cbn [with_cache _access_token _expires_at _refresh_margin].
  rewrite Ht. cbn [andb].
  destruct (Z.ltb_spec t
              (clock w (ticks w) + Z.max expires_in (_refresh_margin me + 1)
               - _refresh_margin me));
    destruct (Z.ltb_spec t
                (clock w (ticks w) + Z.max (expires_in - _refresh_margin me) 1));
    try reflexivity; lia.
Qed.

(** Pushing the expiry into the past, as the end-to-end refresh test
    does with [provider._expires_at = time.time() - 10]: when the margin
    is at least [-10] and the clock has not gone back since that
    reading [t], the next read sends exactly one token request, whatever
    was cached. *)
Theorem forced_expiry_refetches (me : Provider) (w : World) (t : Z) :
  -10 <= _refresh_margin me ->
  t <= clock w (ticks w) ->
  let me0 := with_cache (_access_token me) (t - 10) me in
  posts (snd (snd (header_factory (me0, w))))
  = (posts w ++ [token_request me])%list.
Proof.
  intros Hm Ht me0.
  assert (Hv : cache_valid me0 (clock w (ticks w)) = false).
  { unfold cache_valid, me0. cbn [with_cache _access_token _expires_at _refresh_margin].
    destruct (truthy (_access_token me)); [|reflexivity]. cbn [andb].
    apply Z.ltb_ge. lia. }
  rewrite (read_stale _ _ Hv).
  pose proof (refresh_token_world me0 (checked me0 w)) as (Hp & _).
  destruct (checked_fields me0 w) as (Hcp & _).
  rewrite Hcp in Hp.
  destruct (_refresh_token (me0, checked me0 w)) as [[e|[]] [me' w']];
    cbn [snd] in Hp |- *.
  - exact Hp.
  - destruct (truthy (_access_token me')); exact Hp.
Qed.

End Window.

(** ** From construction to the first header *)

Section FirstRead.
Context `{Platform}.

(** The form of every token request: four fields and no other. *)
Lemma token_payload_fields (me : Provider) :
  token_payload me !! "grant_type" = Some "client_credentials"
  /\ token_payload me !! "client_id" = Some (_client_id me)
  /\ token_payload me !! "client_secret" = Some (_client_secret me)
  /\ token_payload me !! "scope" = Some (join " " (_scopes me))
  /\ dom (token_payload me)
     = ({["grant_type"; "client_id"; "client_secret"; "scope"]} : gset string).
Proof.
  unfold token_payload. cbn [list_to_map foldr].
  split; [by simplify_map_eq|]. split; [by simplify_map_eq|].
  split; [by simplify_map_eq|]. split; [by simplify_map_eq|].
  rewrite !dom_insert_L, dom_empty_L. set_solver.
Qed.

(** A provider just constructed holds no token, so its first read
    fetches without looking at the clock first: after construction and
    one read exactly one GET and one POST are out; the POST goes to the
    discovered endpoint with the request timeout given to the
    constructor, and its form carries the client id and secret given,
    the grant type [client_credentials], the joined scopes, and nothing
    else. *)
Theorem first_read_fetches host cid secret scopes margin timeout
    (w : World) me w1 :
  __init__ (Some host) (Some cid) (Some secret) scopes margin timeout w
  = (inr me, w1) ->
  let s := snd (header_factory (me, w1)) in
  exists sent,
    truthy (_access_token me) = false
    /\ length (gets (snd s)) = S (length (gets w))
    /\ posts (snd s) = (posts w ++ [sent])%list
    /\ post_url sent = _token_endpoint me
    /\ post_timeout sent = timeout
    /\ post_data sent !! "grant_type" = Some "client_credentials"
    /\ post_data sent !! "client_id" = Some cid
    /\ post_data sent !! "client_secret" = Some secret
    /\ post_data sent !! "scope" = Some (join " " (_scopes me))
    /\ dom (post_data sent)
       = ({["grant_type"; "client_id"; "client_secret"; "scope"]} : gset string).
Proof.
  intros Hinit.
  assert (Hshape : exists eps te,
             me = built host cid secret eps scopes margin timeout te
             /\ gets w1 = (gets w ++ [discovery_request
                                        (built host cid secret eps scopes margin
                                           timeout JNull) eps])%list
             /\ posts w1 = posts w).
  { unfold __init__ in Hinit.
    destruct (falsy_str (Some host)); [discriminate|].
    destruct (falsy_str (Some cid)); [discriminate|].
    destruct (falsy_str (Some secret)); [discriminate|].
    cbv zeta in Hinit. cbn [default from_option] in Hinit. unfold id in Hinit.
    destruct (get_oauth_endpoints _ false) as [eps|]; [|discriminate].
    unfold bind, ret in Hinit.
    change {| _hostname := _normalize_hostname host; _client_id := cid;
              _client_secret := secret;
              _scopes := get_scopes_mapping eps
                           match scopes with
                           | Some it => if iter_truthy it then tuple it
                                        else DEFAULT_SCOPES
                           | None => DEFAULT_SCOPES
                           end;
              _refresh_margin := margin; _request_timeout := timeout;
              _access_token := JNull; _expires_at := 0;
              _token_endpoint := JNull |}
      with (built host cid secret eps scopes margin timeout JNull) in Hinit.
    rewrite discover_unfold in Hinit. cbn zeta in Hinit.
    exists eps.
    destruct (net_get w _ _) as [|r]; [discriminate|].
    destruct (raise_for_status_raises r); [discriminate|].
    destruct (json_body r) as [[| | | | | |m]|]; try discriminate.
    destruct (truthy _); [|discriminate].
    inversion Hinit; subst. eexists. split; [reflexivity|].
    split; reflexivity. }
  destruct Hshape as (eps & te & -> & Hg & Hp).
  set (me := built host cid secret eps scopes margin timeout te).
  assert (Hv : cache_valid me (clock w1 (ticks w1)) = false) by reflexivity.
  cbn zeta. rewrite (read_stale _ _ Hv).
  pose proof (refresh_token_world me (checked me w1)) as (Hposts & _ & _ & Hgets).
  assert (Hck : checked me w1 = w1) by reflexivity.
  rewrite Hck in *.
  destruct (token_payload_fields me) as (Hgt & Hid & Hse & Hsc & Hdom).
  exists (token_request me).
  assert (Hstate : forall st : State,
             st = snd (_refresh_token (me, w1)) ->
             length (gets (snd st)) = S (length (gets w))
             /\ posts (snd st) = (posts w ++ [token_request me])%list).
  { intros st ->. rewrite Hgets, Hposts, Hg, Hp, length_app. cbn [length].
    split; [lia | reflexivity]. }
  split; [reflexivity|].
  destruct (_refresh_token (me, w1)) as [[e|[]] [me' w']]; cbn [snd fst] in *.
  - destruct (Hstate (me', w') eq_refl) as [Hl Hs]. auto 12.
  - destruct (truthy (_access_token me'));
      destruct (Hstate (me', w') eq_refl) as [Hl Hs]; auto 12.
Qed.

End FirstRead.

(** ** Status before body *)

Section Status.
Context `{Platform}.

(** The status is looked at before the body.  With the response double
    of the unit tests, a token answer whose status is outside
    [200..299] ends the refresh in the authentication error of the
    failed request whatever its payload, a well-formed token included,
    and nothing is cached; with a status inside, the payload is looked
    at, and one without [access_token] ends in the other
    authentication error. *)
Theorem error_status_wins_over_body (me : Provider) (w : World) payload status :
  net_post w (length (posts w)) (token_request me)
  = Returns (DummyResponse payload status) ->
  (status < 200 \/ 300 <= status ->
   _refresh_token (me, w)
   = (inl (ServicePrincipalAuthenticationError
             "Failed to retrieve OAuth token for service principal"),
      (me, log_post (token_request me) w)))
  /\ (200 <= status < 300 ->
      (forall m, payload = JObj m -> m !! "access_token" = None) ->
      _refresh_token (me, w)
      = (inl (ServicePrincipalAuthenticationError
                "OAuth response did not include an access token"),
         (me, log_post (token_request me) w))).
Proof.
  intros Hnet. split.
  - intros Hbad. rewrite refresh_token_unfold. cbn zeta. rewrite Hnet.
    assert (Hr : raise_for_status_raises (DummyResponse payload status) = true).
    { unfold DummyResponse. cbn.
      destruct (Z.leb_spec 200 status); destruct (Z.ltb_spec status 300);
        try reflexivity; lia. }
    rewrite Hr. reflexivity.
  - intros Hok Hlacks. rewrite refresh_token_unfold. cbn zeta. rewrite Hnet.
    assert (Hr : raise_for_status_raises (DummyResponse payload status) = false).
    { unfold DummyResponse. cbn.
      destruct (Z.leb_spec 200 status); destruct (Z.ltb_spec status 300);
        try reflexivity; lia. }
    rewrite Hr. cbn [DummyResponse json_body].
    destruct payload as [| | | | | |m]; try reflexivity.
    rewrite (Hlacks m eq_refl). reflexivity.
Qed.

End Status.

(** ** More on hostnames *)

Section CleanHostnames.

Lemma rstrip_id (c : ascii) (s : string) :
  endswith_char c s = false -> rstrip c s = s.
Proof.
  induction s as [|a s IH]; [reflexivity|].
  cbn [endswith_char rstrip]. destruct s as [|b s'].
  - intros Ha. cbn. rewrite Ha. reflexivity.
  - intros He. rewrite (IH He). cbn [String.eqb]. rewrite andb_false_r.
    reflexivity.
Qed.

Lemma append_cons (a : ascii) (p s : string) :
  String a p ++ s = String a (p ++ s).
Proof. reflexivity. Qed.

Lemma rstrip_app (c : ascii) (p s : string) :
  rstrip c s <> "" -> rstrip c (p ++ s) = p ++ rstrip c s.
Proof.
  intros Hs. induction p as [|a p IH]; [reflexivity|].
  rewrite !append_cons. cbn [rstrip]. rewrite IH.
  destruct (p ++ rstrip c s) as [|b r] eqn:E.
  - destruct p; [exfalso; apply Hs; exact E | discriminate].
  - cbn [String.eqb]. rewrite andb_false_r. reflexivity.
Qed.

Lemma rstrip_app_empty (c : ascii) (p s : string) :
  rstrip c s = "" -> rstrip c (p ++ s) = rstrip c p.
Proof.
  intros Hs. induction p as [|a p IH]; [exact Hs|].
  rewrite append_cons. cbn [rstrip]. rewrite IH. reflexivity.
Qed.

(** A bare hostname (no scheme, not empty, no slash at the end) gets
    the scheme and nothing else changes; normalizing the result once
    more takes the scheme off again, so normalization is not
    idempotent. *)
Theorem normalize_bare_hostname (hostname : string) :
  startswith hostname "https://" = false ->
  hostname <> "" ->
  endswith_char "/" hostname = false ->
  _normalize_hostname hostname = "https://" ++ hostname
  /\ _normalize_hostname (_normalize_hostname hostname) = hostname.
Proof.
  intros Hs Hne He.
  assert (E : _normalize_hostname hostname = "https://" ++ hostname).
  { rewrite (normalize_without_scheme _ Hs), rstrip_app;
      rewrite (rstrip_id _ _ He); [reflexivity | exact Hne]. }
  split; [exact E|].
  rewrite E, normalize_with_scheme. apply rstrip_id. exact He.
Qed.

(** A hostname made of slashes only passes the emptiness check of
    [__init__], and is stored as [https:]: stripping takes the slashes
    of the scheme too. *)
Theorem normalize_slashes_only (hostname : string) :
  hostname <> "" ->
  rstrip "/" hostname = "" ->
  falsy_str (Some hostname) = false
  /\ _normalize_hostname hostname = "https:".
Proof.
  intros Hne Hall.
  destruct hostname as [|a rest]; [contradiction|].
  split; [reflexivity|].
  assert (Ha : a = "/"%char).
  { cbn [rstrip] in Hall. destruct (Ascii.eqb_spec a "/"); [assumption|].
    cbn in Hall. discriminate. }
  subst a.
  rewrite normalize_without_scheme by reflexivity.
  rewrite rstrip_app_empty by exact Hall. reflexivity.
Qed.

End CleanHostnames.

(** ** The environment of the end-to-end tests *)

Section EndToEnd.

(** The variables a load reports missing are those of the list that
    are unset or empty, in the order of the list. *)
Lemma missing_nil (environ : gmap string string) (keys : list string) :
  List.map fst
    (List.filter (fun kv : string * option string => falsy_str (snd kv))
       (List.map (fun key => (key, environ !! key)) keys)) = []
  <-> Forall (fun key => exists v, environ !! key = Some v /\ v <> "") keys.
Proof.
  induction keys as [|k keys IH]; cbn.
  - split; [constructor | reflexivity].
  - destruct (environ !! k) as [v|] eqn:Ek; cbn.
    + destruct (String.eqb_spec v "") as [->|Hne]; cbn.
      * split; [discriminate|]. intros HF. inversion HF as [|? ? (v' & Hv' & Hne') _].
        exfalso. apply Hne'. rewrite Ek in Hv'. congruence.
      * rewrite IH. split.
        -- intros HF. constructor; [eauto | exact HF].
        -- intros HF. inversion HF. assumption.
    + split; [discriminate|]. intros HF. inversion HF as [|? ? (v' & Hv' & _) _].
      rewrite Ek in Hv'. discriminate.
Qed.

Lemma missing_keys (environ : gmap string string) (keys : list string) :
  List.map fst
    (List.filter (fun kv : string * option string => falsy_str (snd kv))
       (List.map (fun key => (key, environ !! key)) keys))
  = List.filter (fun key => falsy_str (environ !! key)) keys.
Proof.
  induction keys as [|k keys IH]; [reflexivity|].
  cbn. destruct (falsy_str (environ !! k)); cbn; rewrite IH; reflexivity.
Qed.

(** [_load_env] returns the environment exactly when each of the six
    required variables is set and not empty, and then it returns them
    all, in the order of [REQUIRED_ENV]; otherwise the test is skipped
    with a message that names the variables unset or empty, in that
    order. *)
Theorem load_env_needs_every_variable (environ : gmap string string) :
  (Forall (fun key => exists v, environ !! key = Some v /\ v <> "") REQUIRED_ENV ->
   _load_env environ
   = inr (List.map (fun key => (key, environ !! key)) REQUIRED_ENV))
  /\ (forall env, _load_env environ = inr env ->
      Forall (fun key => exists v, environ !! key = Some v /\ v <> "") REQUIRED_ENV)
  /\ (forall msg, _load_env environ = inl msg ->
      msg = "Service principal env vars missing: "
            ++ join ", " (List.filter (fun key => falsy_str (environ !! key))
                            REQUIRED_ENV)
            ++ ". Populate test.env with workspace and service principal credentials.").
Proof.
  pose proof (missing_nil environ REQUIRED_ENV) as Hnil.
  pose proof (missing_keys environ REQUIRED_ENV) as Hkeys.
  unfold _load_env. cbv zeta.
  destruct (List.map fst _) as [|k missing] eqn:Emiss.
  - split; [reflexivity|]. split; [|discriminate].
    intros env _. apply Hnil. reflexivity.
  - split; [|split].
    + intros HF. apply Hnil in HF. discriminate.
    + intros env Henv. discriminate.
    + intros msg Hmsg. inversion Hmsg. rewrite <- Hkeys. reflexivity.
Qed.

(** What a successful load returned. *)
Lemma load_env_shape (environ : gmap string string) env :
  _load_env environ = inr env ->
  env = List.map (fun key => (key, environ !! key)) REQUIRED_ENV
  /\ Forall (fun key => exists v, environ !! key = Some v /\ v <> "") REQUIRED_ENV.
Proof.
  pose proof (missing_nil environ REQUIRED_ENV) as Hnil.
  unfold _load_env. cbv zeta.
  destruct (List.map fst _) as [|k missing] eqn:Emiss; [|discriminate].
  intros Henv. inversion Henv. split; [reflexivity|]. apply Hnil. reflexivity.
Qed.

Lemma lstrip_not_leading (c : ascii) (s : string) :
  match lstrip c s with
  | String a _ => a <> c
  | EmptyString => True
  end.
Proof.
  induction s as [|a s IH]; cbn; [exact I|].
  destruct (Ascii.eqb_spec a c); [exact IH | assumption].
Qed.

(** On an environment that [_load_env] returned, [_build_url] never
    raises [KeyError]; with extra parameters the URL is the plain one,
    one ampersand, and the parameters without their leading
    ampersands. *)
Theorem loaded_env_builds_url (environ : gmap string string) env extra_params :
  _load_env environ = inr env ->
  exists base,
    _build_url env "" = inr base
    /\ _build_url env extra_params
       = inr (if String.eqb extra_params "" then base
              else base ++ "&" ++ lstrip "&" extra_params)
    /\ startswith (lstrip "&" extra_params) "&" = false.
Proof.
  intros Hload.
  destruct (load_env_shape environ env Hload) as [-> HF].
  unfold _build_url. cbn [List.map REQUIRED_ENV dict_item String.eqb Ascii.eqb
                            Bool.eqb].
  eexists. split; [reflexivity|]. split.
  - destruct (String.eqb extra_params ""); reflexivity.
  - pose proof (lstrip_not_leading "&" extra_params) as Hl.
    destruct (lstrip "&" extra_params) as [|a r]; [reflexivity|].
    unfold startswith.
    change (String.prefix "&" (String a r))
      with (if ascii_dec "&" a then String.prefix "" r else false).
    destruct (ascii_dec "&" a) as [<-|]; [contradiction | reflexivity].
Qed.

End EndToEnd.

(** ** More worked instances *)

Section MoreInstances.

Local Existing Instance example_platform.

(** No answer to the token request. *)
Lemma post_failure_instance :
  header_factory (example_provider 60, scripted_world Raises [])
  = (inl RequestException,
     (example_provider 60,
      log_post (token_request (example_provider 60)) (scripted_world Raises []))).
Proof.
  exact (post_failure_propagates (example_provider 60) (scripted_world Raises [])
           eq_refl eq_refl).
Defined.

(** [{"access_token": "", "expires_in": 5}]. *)
Lemma falsy_token_instance :
  exists me' w',
    header_factory (example_provider 60, scripted_world Raises [answer_empty_token])
    = (inl AssertionError, (me', w'))
    /\ _access_token me' = JStr ""
    /\ forall t, cache_valid me' t = false.
Proof.
  apply (falsy_token_stored_then_rejected (example_provider 60)
           (scripted_world Raises [answer_empty_token]) answer_empty_token
           (list_to_map [("access_token", JStr ""); ("expires_in", JInt 5)])
           (JStr "") 5); reflexivity.
Defined.

(** The lifetime read that fails was given an infinite float. *)
Lemma lifetime_read_instance :
  OverflowError = OverflowError
  /\ exists b,
       (list_to_map [("access_token", JStr "t1");
                     ("expires_in", JFloat (S754_infinity false))]
          : gmap string json) !! "expires_in"
       = Some (JFloat (S754_infinity b)).
Proof.
  exact (lifetime_read_fails_only_on_infinity
           (list_to_map [("access_token", JStr "t1");
                         ("expires_in", JFloat (S754_infinity false))])
           tt tt OverflowError eq_refl).
Defined.

(** The exception of a read that got no answer is one of the four. *)
Lemma read_exceptions_instance :
  RequestException = RequestException
  \/ (exists msg, RequestException = ServicePrincipalAuthenticationError msg)
  \/ RequestException = OverflowError
  \/ RequestException = AssertionError.
Proof.
  assert (E : header_factory (example_provider 60, scripted_world Raises [])
              = (inl RequestException,
                 (example_provider 60,
                  log_post (token_request (example_provider 60))
                    (scripted_world Raises []))))
    by (vm_compute; reflexivity).
  exact (read_exceptions _ _ _ _ E).
Defined.

(** Lifetime 5 under margin 60, fetched at reading 0: served at 0,
    not at 1. *)
Lemma window_instance :
  cache_valid (with_cache (JStr "t1") 61 (example_provider 60)) 0 = true
  /\ cache_valid (with_cache (JStr "t1") 61 (example_provider 60)) 1 = false.
Proof.
  assert (E : _refresh_token (example_provider 60, scripted_world Raises [answer_t1])
              = (inr tt,
                 (with_cache (JStr "t1") 61 (example_provider 60),
                  tick (log_post (token_request (example_provider 60))
                          (scripted_world Raises [answer_t1])))))
    by (vm_compute; reflexivity).
  pose proof (validity_window_length _ _ _ _ answer_t1
                (JObj (list_to_map [("access_token", JStr "t1");
                                    ("expires_in", JInt 5)])) 5
                E eq_refl eq_refl (fun s => eq_refl) eq_refl)
    as Hwin.
  split; [exact (Hwin 0) | exact (Hwin 1)].
Defined.

(** Expiry pushed ten seconds before the reading 0. *)
Lemma forced_expiry_instance :
  posts (snd (snd (header_factory
                     (with_cache (JStr "t1") (0 - 10) (example_provider 60),
                      scripted_world Raises [answer_t2]))))
  = [token_request (example_provider 60)].
Proof.
  refine (forced_expiry_refetches
            (with_cache (JStr "t1") 3600 (example_provider 60))
            (scripted_world Raises [answer_t2]) 0 _ _); cbn; lia.
Defined.

(** Construction, then the first read. *)
Lemma first_read_instance :
  exists sent,
    posts (snd (snd (header_factory
                       (built "dbc.cloud.databricks.com" "client-id" "secret"
                          plain_endpoints None 60 10
                          (JStr "https://dbc.cloud.databricks.com/oidc/v1/token"),
                        log_get {| get_url := "https://dbc.cloud.databricks.com/oidc/.well-known/oauth-authorization-server";
                                   get_timeout := 10 |}
                          (scripted_world discovery_ok [answer_t1])))))
    = [sent]
    /\ post_url sent = JStr "https://dbc.cloud.databricks.com/oidc/v1/token"
    /\ post_data sent !! "client_id" = Some "client-id".
Proof.
  assert (E : __init__ (Some "dbc.cloud.databricks.com") (Some "client-id")
                (Some "secret") None 60 10 (scripted_world discovery_ok [answer_t1])
              = (inr (built "dbc.cloud.databricks.com" "client-id" "secret"
                        plain_endpoints None 60 10
                        (JStr "https://dbc.cloud.databricks.com/oidc/v1/token")),
                 log_get {| get_url := "https://dbc.cloud.databricks.com/oidc/.well-known/oauth-authorization-server";
                            get_timeout := 10 |}
                   (scripted_world discovery_ok [answer_t1])))
    by (vm_compute; reflexivity).
  destruct (first_read_fetches _ _ _ _ _ _ _ _ _ E)
    as (sent & _ & _ & Hp & Hurl & _ & _ & Hid & _).
  exists sent. split; [exact Hp|]. split; [exact Hurl | exact Hid].
Defined.

(** Status 500 with a well-formed token in the body. *)
Lemma error_status_instance :
  _refresh_token (example_provider 60, scripted_world Raises [answer_500])
  = (inl (ServicePrincipalAuthenticationError
            "Failed to retrieve OAuth token for service principal"),
     (example_provider 60,
      log_post (token_request (example_provider 60))
        (scripted_world Raises [answer_500]))).
Proof.
  refine (proj1 (error_status_wins_over_body (example_provider 60)
                   (scripted_world Raises [answer_500])
                   (JObj (list_to_map [("access_token", JStr "t1");
                                       ("expires_in", JInt 5)])) 500 eq_refl) _).
  right. lia.
Defined.

(** The host of the unit test, and normalizing it twice. *)
Lemma normalize_bare_instance :
  _normalize_hostname "dbc.cloud.databricks.com"
  = "https://dbc.cloud.databricks.com"
  /\ _normalize_hostname (_normalize_hostname "dbc.cloud.databricks.com")
     = "dbc.cloud.databricks.com".
Proof.
  apply normalize_bare_hostname; [reflexivity | discriminate | reflexivity].
Defined.

(** Two slashes. *)
Lemma normalize_slashes_instance :
  falsy_str (Some "//") = false /\ _normalize_hostname "//" = "https:".
Proof.
  apply normalize_slashes_only; [discriminate | reflexivity].
Defined.

(** The six variables set: the URL of the end-to-end tests, with
    [&sp_scopes=sql] however many ampersands lead the extra
    parameters. *)
Lemma build_url_instance :
  exists env base,
    _load_env environ_full = inr env
    /\ _build_url env "" = inr base
    /\ _build_url env "&&sp_scopes=sql" = inr (base ++ "&sp_scopes=sql").
Proof.
  assert (E : _load_env environ_full
              = inr (List.map (fun key => (key, environ_full !! key)) REQUIRED_ENV))
    by (vm_compute; reflexivity).
  destruct (loaded_env_builds_url environ_full _ "&&sp_scopes=sql" E)
    as (base & Hb & Hx & _).
  eexists _, base. split; [exact E|]. split; [exact Hb | exact Hx].
Defined.

(** The six variables set: the load succeeds. *)
Lemma load_env_instance :
  _load_env environ_full
  = inr (List.map (fun key => (key, environ_full !! key)) REQUIRED_ENV).
Proof.
  apply (proj1 (load_env_needs_every_variable environ_full)).
  repeat constructor; eexists; (split; [vm_compute; reflexivity | discriminate]).
Defined.

End MoreInstances.

(** ** Two invariants *)

Section Invariants.
Context `{Platform}.

(** Construction fetches no token and never reads the clock: whatever
    the arguments and the answers, it sends no POST and at most one GET,
    and it raises nothing but the configuration error, the
    authentication error and [AttributeError]. *)
Theorem init_fetches_no_token (host cid secret : option string) scopes
    margin timeout (w : World) :
  let run := __init__ host cid secret scopes margin timeout w in
  posts (snd run) = posts w
  /\ ticks (snd run) = ticks w
  /\ (length (gets w) <= length (gets (snd run)) <= S (length (gets w)))%nat
  /\ (forall e, fst run = inl e ->
      (exists msg, e = ServicePrincipalConfigurationError msg)
      \/ (exists msg, e = ServicePrincipalAuthenticationError msg)
      \/ e = AttributeError)
  /\ (forall me, fst run = inr me ->
      _access_token me = JNull /\ _expires_at me = 0
      /\ _refresh_margin me = margin /\ _request_timeout me = timeout
      /\ truthy (_token_endpoint me) = true).
Proof.
  cbv zeta.
  assert (Hearly : forall msg,
             let run : (exn + Provider) * World :=
               (inl (ServicePrincipalConfigurationError msg), w) in
             posts (snd run) = posts w
             /\ ticks (snd run) = ticks w
             /\ (length (gets w) <= length (gets (snd run)) <= S (length (gets w)))%nat
             /\ (forall e, fst run = inl e ->
                 (exists msg, e = ServicePrincipalConfigurationError msg)
                 \/ (exists msg, e = ServicePrincipalAuthenticationError msg)
                 \/ e = AttributeError)
             /\ (forall me, fst run = inr me ->
                 _access_token me = JNull /\ _expires_at me = 0
                 /\ _refresh_margin me = margin /\ _request_timeout me = timeout
                 /\ truthy (_token_endpoint me) = true)).
  { intros msg. cbn. split; [reflexivity|]. split; [reflexivity|].
    split; [lia|]. split; [|discriminate].
    intros e He. inversion He. eauto. }
  unfold __init__.
  destruct (falsy_str host); [apply Hearly|].
  destruct (falsy_str cid); [apply Hearly|].
  destruct (falsy_str secret); [apply Hearly|].
  cbv zeta.
  destruct (get_oauth_endpoints _ false) as [eps|]; [|apply Hearly].
  unfold bind, ret. rewrite discover_unfold. cbn zeta.
  assert (Hlen : forall req, (length (gets w) <= length (gets (log_get req w))
                              <= S (length (gets w)))%nat).
  { intros req. cbn. rewrite length_app. cbn. lia. }
  destruct (net_get w _ _) as [|r].
  { cbn [fst snd]. split; [reflexivity|]. split; [reflexivity|].
    split; [apply Hlen|]. split; [|discriminate].
    intros e He. inversion He. eauto. }
  destruct (raise_for_status_raises r).
  { cbn [fst snd]. split; [reflexivity|]. split; [reflexivity|].
    split; [apply Hlen|]. split; [|discriminate].
    intros e He. inversion He. eauto. }
  destruct (json_body r) as [[| | | | | |m]|];
    try (cbn [fst snd]; split; [reflexivity|]; split; [reflexivity|];
         split; [apply Hlen|]; split; [|discriminate];
         intros e He; inversion He; eauto; fail).
  destruct (truthy (default JNull (m !! "token_endpoint"))) eqn:Hte.
  - cbn [fst snd]. split; [reflexivity|]. split; [reflexivity|].
    split; [apply Hlen|]. split; [discriminate|].
    intros me Hme. inversion Hme; subst. cbn. auto.
  - cbn [fst snd]. split; [reflexivity|]. split; [reflexivity|].
    split; [apply Hlen|]. split; [|discriminate].
    intros e He. inversion He. eauto.
Qed.

(** Once a token is cached, a read never moves the expiry back when the
    clock does not go back between the check and the store: it is left
    as it was (the token was served, or the refresh failed), or it grows
    (the refresh stored a new one). *)
Theorem expiry_never_moves_back (me : Provider) (w : World) r me' w' :
  truthy (_access_token me) = true ->
  clock w (ticks w) <= clock w (S (ticks w)) ->
  header_factory (me, w) = (r, (me', w')) ->
  _expires_at me' = _expires_at me
  \/ (_expires_at me < _expires_at me'
      /\ posts w' = (posts w ++ [token_request me])%list).
Proof.
  intros Ht Hclock Hrun.
  destruct (cache_valid me (clock w (ticks w))) eqn:Hv.
  - rewrite (read_cached _ _ Hv) in Hrun. inversion Hrun; subst. auto.
  - assert (Hstale : _expires_at me - _refresh_margin me <= clock w (ticks w)).
    { unfold cache_valid in Hv. rewrite Ht in Hv. cbn [andb] in Hv.
      apply Z.ltb_ge. exact Hv. }
    rewrite (read_stale _ _ Hv) in Hrun.
    unfold checked in Hrun. rewrite Ht in Hrun.
    rewrite refresh_token_unfold in Hrun. cbn zeta in Hrun.
    cbn [tick posts net_post clock ticks] in Hrun.
    destruct (net_post w _ _) as [|resp]; [inversion Hrun; auto|].
    destruct (raise_for_status_raises resp); [inversion Hrun; auto|].
    destruct (json_body resp) as [[| | | | | |m]|];
      try (inversion Hrun; auto; fail).
    destruct (m !! "access_token") as [token|]; [|inversion Hrun; auto].
    destruct (fst (parse_expires_in _ _)) as [e|z]; [inversion Hrun; auto|].
    cbn [with_cache _access_token] in Hrun.
    right.
    destruct (truthy token); inversion Hrun; subst;
      cbn [with_cache _expires_at log_post tick posts]; (split; [lia | reflexivity]).
Qed.

End Invariants.

Section InvariantInstances.

Local Existing Instance example_platform.

(** A stale token at reading 100: the refresh moves the expiry on
    from 61. *)
Lemma expiry_instance :
  _expires_at
    (fst (snd (header_factory
                 (with_cache (JStr "t1") 61 (example_provider 60),
                  set_clock 100 (scripted_world Raises [answer_t2])))))
  = 61
  \/ (61 < _expires_at
             (fst (snd (header_factory
                          (with_cache (JStr "t1") 61 (example_provider 60),
                           set_clock 100 (scripted_world Raises [answer_t2])))))
      /\ posts
           (snd (snd (header_factory
                        (with_cache (JStr "t1") 61 (example_provider 60),
                         set_clock 100 (scripted_world Raises [answer_t2])))))
         = [token_request (example_provider 60)]).
Proof.
  refine (expiry_never_moves_back
            (with_cache (JStr "t1") 61 (example_provider 60))
            (set_clock 100 (scripted_world Raises [answer_t2]))
            _ _ _ eq_refl _ _).
  - cbn. lia.
  - rewrite <- !surjective_pairing. reflexivity.
Defined.

End InvariantInstances.

(** ** On the float clock *)

Section FloatClock.

Lemma digits2_size (p : positive) : digits2_pos p = Pos.size p.
Proof. induction p; cbn; congruence. Qed.

Lemma digits2_bounds (p : positive) :
  2 ^ (Zpos (digits2_pos p) - 1) <= Zpos p < 2 ^ Zpos (digits2_pos p).
Proof.
  rewrite digits2_size. split.
  - pose proof (Pos.size_le p) as H.
    assert (2 ^ Zpos (Pos.size p) <= 2 * Zpos p).
    { change 2 with (Zpos 2) at 1. rewrite <- Pos2Z.inj_pow.
      change (2 * Zpos p) with (Zpos (p~0)). apply Pos2Z.pos_le_pos. exact H. }
    replace (Zpos (Pos.size p)) with (Zpos (Pos.size p) - 1 + 1) in H0 by lia.
    rewrite Z.pow_add_r in H0 by lia. lia.
  - pose proof (Pos.size_gt p) as H.
    change 2 with (Zpos 2). rewrite <- Pos2Z.inj_pow. apply Pos2Z.pos_lt_pos. exact H.
Qed.

Lemma shr_1_m mrs : 0 <= shr_m mrs -> shr_m (shr_1 mrs) = shr_m mrs / 2.
Proof.
  destruct mrs as [m r s]. cbn. intros Hm.
  destruct m as [|p|p]; [reflexivity| |lia].
  destruct p as [p|p|]; cbn [shr_m].
  - rewrite Pos2Z.inj_xI. apply Z.div_unique with 1; lia.
  - rewrite Pos2Z.inj_xO. apply Z.div_unique with 0; lia.
  - reflexivity.
Qed.

Lemma pow2_xO (k : positive) : 2 ^ Zpos k~0 = 2 ^ Zpos k * 2 ^ Zpos k.
Proof. rewrite Pos2Z.inj_xO, <- Z.pow_add_r by lia. f_equal. lia. Qed.

Lemma pow2_xI (k : positive) : 2 ^ Zpos k~1 = 2 * (2 ^ Zpos k * 2 ^ Zpos k).
Proof.
  rewrite Pos2Z.inj_xI, <- Z.pow_add_r by lia.
  replace (2 * Zpos k + 1) with (1 + (Zpos k + Zpos k)) by lia.
  rewrite Z.pow_add_r by lia. reflexivity.
Qed.

Lemma iter_shr_m (k : positive) : forall mrs,
  0 <= shr_m mrs -> shr_m (SpecFloat.iter_pos shr_1 k mrs) = shr_m mrs / 2 ^ Zpos k.
Proof.
  assert (Hpow : forall j : positive, 0 < 2 ^ Zpos j)
    by (intros j; apply Z.pow_pos_nonneg; lia).
  induction k as [k IH|k IH|]; intros mrs Hm; cbn [SpecFloat.iter_pos].
  - assert (H1 : 0 <= shr_m (shr_1 mrs))
      by (rewrite shr_1_m by lia; apply Z.div_pos; lia).
    assert (H2 : 0 <= shr_m (SpecFloat.iter_pos shr_1 k (shr_1 mrs)))
      by (rewrite IH by lia; apply Z.div_pos; [lia | apply Hpow]).
    rewrite IH by lia. rewrite IH by lia. rewrite shr_1_m by lia.
    rewrite pow2_xI. pose proof (Hpow k) as Hk.
    assert (Hkk : 0 < 2 ^ Zpos k * 2 ^ Zpos k) by (apply Z.mul_pos_pos; assumption).
    rewrite (Z.div_div _ 2 (2 ^ Zpos k)) by lia.
    rewrite (Z.div_div _ (2 * 2 ^ Zpos k) (2 ^ Zpos k)) by lia.
    f_equal. lia.
  - assert (H2 : 0 <= shr_m (SpecFloat.iter_pos shr_1 k mrs))
      by (rewrite IH by lia; apply Z.div_pos; [lia | apply Hpow]).
    rewrite IH by lia. rewrite IH by lia. rewrite pow2_xO.
    pose proof (Hpow k) as Hk. rewrite Z.div_div by lia. reflexivity.
  - rewrite shr_1_m by lia. reflexivity.
Qed.

Lemma shr_record_of_loc_m m l : shr_m (shr_record_of_loc m l) = m.
Proof. destruct l as [|[]]; reflexivity. Qed.

Lemma round_nearest_even_ge mx lx : mx <= round_nearest_even mx lx.
Proof.
  destruct lx as [|[]]; cbn; try lia. destruct (Z.even mx); lia.
Qed.

(** Shifting a mantissa of at least 53 digits at a non-negative
    exponent: the exponent does not go down and at least 53 digits are
    left. *)
Lemma shr_fexp_large (p : positive) (e : Z) (l : location) :
  0 <= e -> 53 <= Zpos (digits2_pos p) ->
  let r := shr_fexp 53 1024 (Zpos p) e l in
  snd r = e + (Zpos (digits2_pos p) - 53) /\ 2 ^ 52 <= shr_m (fst r).
Proof.
  intros He Hd. pose proof (digits2_bounds p) as [Hlo Hhi].
  unfold shr_fexp. cbn [Zdigits2].
  set (d := Zpos (digits2_pos p)) in *.
  assert (Hfexp : fexp 53 1024 (d + e) - e = d - 53) by (unfold fexp, emin; lia).
  rewrite Hfexp. unfold shr.
  destruct (d - 53) as [|n|n] eqn:En; try lia; cbn [fst snd].
  - rewrite shr_record_of_loc_m. split; [lia|].
    replace 52 with (d - 1) by lia. exact Hlo.
  - split; [reflexivity|].
    rewrite iter_shr_m by (rewrite shr_record_of_loc_m; lia).
    rewrite shr_record_of_loc_m.
    apply Z.div_le_lower_bound; [apply Z.pow_pos_nonneg; lia|].
    rewrite <- Z.pow_add_r by lia.
    replace (Zpos n + 52) with (d - 1) by lia. exact Hlo.
Qed.

Lemma digits_ge_53 (p : positive) : 2 ^ 52 <= Zpos p -> 53 <= Zpos (digits2_pos p).
Proof.
  intros Hp. pose proof (digits2_bounds p) as [_ Hhi].
  destruct (Z.le_gt_cases 53 (Zpos (digits2_pos p))) as [|Hlt]; [assumption|].
  exfalso. assert (2 ^ Zpos (digits2_pos p) <= 2 ^ 52)
    by (apply Z.pow_le_mono_r; lia). lia.
Qed.

Lemma of_Z_overflow (z : Z) :
  2 ^ 1024 <= z -> Binary64.of_Z z = S754_infinity false.
Proof.
  intros Hz. destruct z as [|p|p]; [cbn in Hz; lia| |lia].
  pose proof (digits2_bounds p) as [Hlo Hhi].
  assert (Hd : 1025 <= Zpos (digits2_pos p)).
  { destruct (Z.le_gt_cases 1025 (Zpos (digits2_pos p))) as [|Hlt]; [assumption|].
    exfalso. assert (2 ^ Zpos (digits2_pos p) <= 2 ^ 1024)
      by (apply Z.pow_le_mono_r; lia). lia. }
  unfold Binary64.of_Z, Binary64.prec, Binary64.emax, binary_normalize,
    binary_round.
  assert (Hfexp : fexp 53 1024 (Zpos (digits2_pos p) + 0) = Zpos (digits2_pos p) - 53)
    by (unfold fexp, emin; lia).
  rewrite Hfexp.
  assert (Halign : shl_align p 0 (Zpos (digits2_pos p) - 53) = (p, 0)).
  { unfold shl_align. destruct (Zpos (digits2_pos p) - 53 - 0) eqn:E; try reflexivity. lia. }
  rewrite Halign.
  unfold binary_round_aux.
  pose proof (shr_fexp_large p 0 loc_Exact ltac:(lia) ltac:(lia)) as [He1 Hm1].
  destruct (shr_fexp 53 1024 (Zpos p) 0 loc_Exact) as [mrs1 e1]. cbn [fst snd] in *.
  pose proof (round_nearest_even_ge (shr_m mrs1) (loc_of_shr_record mrs1)) as Hr.
  destruct (round_nearest_even (shr_m mrs1) (loc_of_shr_record mrs1)) as [|p2|p2] eqn:Er;
    [exfalso; assert (0 < 2 ^ 52) by (apply Z.pow_pos_nonneg; lia); lia
    | | exfalso; assert (0 < 2 ^ 52) by (apply Z.pow_pos_nonneg; lia); lia].
  pose proof (shr_fexp_large p2 e1 loc_Exact ltac:(lia)
                (digits_ge_53 p2 ltac:(lia))) as [He2 Hm2].
  destruct (shr_fexp 53 1024 (Zpos p2) e1 loc_Exact) as [mrs2 e2]. cbn [fst snd] in *.
  pose proof (digits_ge_53 p2 ltac:(lia)) as Hd2.
  destruct (shr_m mrs2) as [|m|m];
    [exfalso; assert (0 < 2 ^ 52) by (apply Z.pow_pos_nonneg; lia); lia
    | | exfalso; assert (0 < 2 ^ 52) by (apply Z.pow_pos_nonneg; lia); lia].
  destruct (Z.leb_spec e2 (1024 - 53)); [lia | reflexivity].
Qed.


(** On the float clock a refresh can fail half way.  When the lifetime
    in the answer is an integer of [2^1024] or more (which the JSON
    parser reads as an [int], and [int] accepts), converting it for the
    sum raises [OverflowError], after the new token has been assigned:
    the cache is left with the new token and the old expiry. *)
Theorem float_clock_overflow_keeps_new_token (access_token : json)
    (expires_in margin : Z) (now : spec_float) (cache : json * spec_float) :
  2 ^ 1024 <= expires_in ->
  store_on_float_clock access_token expires_in margin now cache
  = (inl OverflowError, (access_token, snd cache)).
Proof.
  intros He. unfold store_on_float_clock, Binary64.add_int, Binary64.of_int.
  rewrite of_Z_overflow by lia. reflexivity.
Qed.

(** [{"access_token": "new", "expires_in": 10**400}] at reading 1.0. *)
Lemma float_clock_overflow_instance :
  store_on_float_clock (JStr "new") (10 ^ 400) 60 (Binary64.of_Z 1)
    (JStr "old", Binary64.of_Z 61)
  = (inl OverflowError, (JStr "new", Binary64.of_Z 61)).
Proof.
  apply (float_clock_overflow_keeps_new_token (JStr "new") (10 ^ 400) 60
           (Binary64.of_Z 1) (JStr "old", Binary64.of_Z 61)).
  vm_compute. discriminate.
Defined.

End FloatClock.

(** ** Failures before the store *)

Section EarlyFailures.
Context `{Platform}.

(** A refresh that ends in the exception of [requests] or in the
    authentication error has changed nothing of the instance, and these
    two and [OverflowError] are all a refresh can raise. *)
Theorem early_failures_keep_instance (me : Provider) (w : World) e me' w' :
  _refresh_token (me, w) = (inl e, (me', w')) ->
  e = OverflowError
  \/ ((e = RequestException
       \/ exists msg, e = ServicePrincipalAuthenticationError msg)
      /\ me' = me).
Proof.
  rewrite refresh_token_unfold. cbn zeta.
  destruct (net_post w _ _) as [|resp].
  { intros Hrun. inversion Hrun. right. auto. }
  destruct (raise_for_status_raises resp).
  { intros Hrun. inversion Hrun. right. eauto. }
  destruct (json_body resp) as [[| | | | | |m]|];
    try (intros Hrun; inversion Hrun; right; eauto; fail).
  destruct (m !! "access_token") as [token|];
    [|intros Hrun; inversion Hrun; right; eauto].
  destruct (parse_expires_in (JObj m) _) as [[e'|z] s'] eqn:Eexp; cbn [fst].
  - apply parse_expires_in_failure in Eexp as [-> _].
    intros Hrun. inversion Hrun. left. reflexivity.
  - discriminate.
Qed.

End EarlyFailures.

Section EarlyFailureInstances.

Local Existing Instance example_platform.

(** No answer to the token request: the instance is as before. *)
Lemma early_failure_instance :
  RequestException = OverflowError
  \/ ((RequestException = RequestException
       \/ exists msg, RequestException = ServicePrincipalAuthenticationError msg)
      /\ example_provider 60 = example_provider 60).
Proof.
  assert (E : _refresh_token (example_provider 60, scripted_world Raises [])
              = (inl RequestException,
                 (example_provider 60,
                  log_post (token_request (example_provider 60))
                    (scripted_world Raises []))))
    by (vm_compute; reflexivity).
  exact (early_failures_keep_instance _ _ _ _ _ E).
Defined.

End EarlyFailureInstances.
